(** * A shallow embedding of the release server of helmdebug (tiller) and of
    the repositories file of the repo package, with the properties of the
    values-reuse policy, the name allocator, the manifest classifier, the
    hook executor and the repositories file.

    Conventions:
    - Go strings are [String.string] (bytes as [ascii]); [len] is [String.length].
    - A Go pair [(T, error)] is [errorOr T]: [Ok v] when the error is [nil],
      [Err msg] otherwise.
    - A Go run-time panic (nil dereference) is a distinct outcome where it
      matters.
    - Go maps whose iteration order is unspecified are association lists; the
      theorems quantify over every list, hence over every iteration order. *)

From Stdlib Require Import String Ascii List ZArith Bool Lia.
Import ListNotations.
Open Scope string_scope.

Inductive errorOr (A : Type) : Type :=
| Ok (a : A)
| Err (e : string).
Arguments Ok {A} a.
Arguments Err {A} e.

(** The newline byte, for the literal ["{}\n"] of the source. *)
Definition NL : string := String (ascii_of_nat 10) EmptyString.

(** ** Data model of the hapi protocol buffers (release, chart, services) *)
Module Hapi.

(** [chart.Config]: a raw YAML configuration. *)
Record Config := mkConfig { Raw : string }.

(** [chart.Chart]: its metadata name, its templates and its default
    values [Values *Config] (the field is [ChartValues] here). *)
Record Chart := mkChart {
  MetadataName : string;
  Templates : list (string * string);
  ChartValues : option Config
}.

(** [release.Status_Code]. *)
Inductive Status_Code :=
| Status_UNKNOWN | Status_DEPLOYED | Status_DELETED | Status_SUPERSEDED
| Status_FAILED | Status_DELETING | Status_PENDING_INSTALL
| Status_PENDING_UPGRADE | Status_PENDING_ROLLBACK.

Definition Status_Code_eqb (a b : Status_Code) : bool :=
  match a, b with
  | Status_UNKNOWN, Status_UNKNOWN | Status_DEPLOYED, Status_DEPLOYED
  | Status_DELETED, Status_DELETED | Status_SUPERSEDED, Status_SUPERSEDED
  | Status_FAILED, Status_FAILED | Status_DELETING, Status_DELETING
  | Status_PENDING_INSTALL, Status_PENDING_INSTALL
  | Status_PENDING_UPGRADE, Status_PENDING_UPGRADE
  | Status_PENDING_ROLLBACK, Status_PENDING_ROLLBACK => true
  | _, _ => false
  end.

(** [release.Release]: name, revision [Version], [Info.Status.Code], the
    chart snapshot and the stored raw configuration [Config]. *)
Record Release := mkRelease {
  RName : string;
  Version : Z;
  StatusCode : Status_Code;
  RChart : Chart;
  RConfig : option Config
}.

(** [services.UpdateReleaseRequest]: the fields [reuseValues] reads or
    writes. [Values] is the configuration supplied with the request,
    [ReqChart] the chart of the upgrade. *)
Record UpdateReleaseRequest := mkUpdateReleaseRequest {
  ReqName : string;
  ReqChart : Chart;
  Values : option Config;
  ResetValues : bool;
  ReuseValues : bool
}.

Definition set_chart_values (c : Chart) (v : option Config) : Chart :=
  mkChart (MetadataName c) (Templates c) v.

Definition set_req_chart (r : UpdateReleaseRequest) (c : Chart)
  : UpdateReleaseRequest :=
  mkUpdateReleaseRequest (ReqName r) c (Values r) (ResetValues r) (ReuseValues r).

Definition set_req_values (r : UpdateReleaseRequest) (v : option Config)
  : UpdateReleaseRequest :=
  mkUpdateReleaseRequest (ReqName r) (ReqChart r) v (ResetValues r) (ReuseValues r).

End Hapi.

(** ** [ReleaseServer.reuseValues] (release_server.go) *)
Module ReuseValues.
Import Hapi.

Section Policy.
(** [chartutil.CoalesceValues] and [Values.YAML] belong to the chartutil
    package; the policy is stated for every coalescing function and every
    serializer. *)
Variable Values_t : Type.
Variable CoalesceValues : Chart -> option Config -> errorOr Values_t.
Variable YAML : Values_t -> errorOr string.

(** The method mutates [*req]; it is modelled as returning the request
    after the call together with the returned error. *)
Definition reuseValues (req : UpdateReleaseRequest) (current : Release)
  : UpdateReleaseRequest * option string :=
  if ResetValues req then (req, None)
  else if ReuseValues req then
    match CoalesceValues (RChart current) (RConfig current) with
    | Err e => (req, Some ("failed to rebuild old values: " ++ e))
    | Ok oldVals =>
        match YAML oldVals with
        | Err e => (req, Some e)
        | Ok nv =>
            (set_req_chart req (set_chart_values (ReqChart req) (Some (mkConfig nv))),
             None)
        end
    end
  else
    let req_blank :=
      match Values req with
      | None => true
      | Some v => (Raw v =? "") || (Raw v =? "{}" ++ NL)
      end in
    let cur_set :=
      match RConfig current with
      | None => false
      | Some c => negb (Raw c =? "") && negb (Raw c =? "{}" ++ NL)
      end in
    if req_blank && cur_set then (set_req_values req (RConfig current), None)
    else (req, None).

End Policy.
End ReuseValues.

(** ** String helpers of the Go standard library used by the sources *)
Module GoStrings.

(** [strings.Contains]. *)
Definition Contains (s substr : string) : bool :=
  match index 0 substr s with Some _ => true | None => false end.

(** The slice [s[:n]] of a string at least [n] bytes long. *)
Definition slice_to (s : string) (n : nat) : string := substring 0 n s.

(** The double-quote byte, for [%q] in format strings. *)
Definition DQ : string := String (ascii_of_nat 34) EmptyString.

Definition quote (s : string) : string := DQ ++ s ++ DQ.

End GoStrings.

(** ** [ReleaseServer.uniqName] (release_server.go) *)
Module UniqName.
Import Hapi GoStrings.

(** [releaseNameMaxLen]. *)
Definition releaseNameMaxLen : nat := 53.

(** A call of [uniqName] returns a name, returns a (placeholder name, error)
    pair, or panics. *)
Inductive outcome :=
| Ret (name : string)
| Fail (name : string) (err : string)
| Panic (why : string).

(** Modelled from the spec: [relutil.Reverse(h, relutil.SortByRevision)] of
    the releaseutil package orders a history by revision number, descending.
    Insertion sort on [Version], highest first. *)
Fixpoint insert_desc (r : Release) (l : list Release) : list Release :=
  match l with
  | [] => [r]
  | x :: l' => if (Version x <=? Version r)%Z then r :: l else x :: insert_desc r l'
  end.

Fixpoint Reverse_SortByRevision (h : list Release) : list Release :=
  match h with
  | [] => []
  | r :: h' => insert_desc r (Reverse_SortByRevision h')
  end.

Section Allocator.
(** The release storage [s.env.Releases]: [History(name)] and
    [Get(name, version)]. *)
Variable History : string -> errorOr (list Release).
Variable Get : string -> Z -> errorOr Release.
(** [moniker.New().NameSep("-")] at the [i]-th attempt of the loop. *)
Variable NameSep : nat -> string.

Definition maxTries : nat := 5.

(** The loop [for i := 0; i < maxTries; i++]: attempt [i] with [fuel]
    attempts left. [err.Error()] on a [nil] error (the name exists) is a
    nil-pointer panic in Go. *)
Fixpoint try_generate (i fuel : nat) : outcome :=
  match fuel with
  | O => Fail "ERROR" "no available release name found"
  | S fuel' =>
      let name0 := NameSep i in
      let name := if Nat.ltb releaseNameMaxLen (String.length name0)
                  then slice_to name0 releaseNameMaxLen else name0 in
      match Get name 1%Z with
      | Ok _ => Panic "runtime error: invalid memory address or nil pointer dereference"
      | Err e =>
          if Contains e "not found" then Ret name
          else try_generate (S i) fuel'
      end
  end.

Definition uniqName (start : string) (reuse : bool) : outcome :=
  if negb (start =? "") then
    if Nat.ltb releaseNameMaxLen (String.length start) then
      Fail "" ("release name " ++ quote start ++ " exceeds max length of 53")
    else
      match History start with
      | Err _ => Ret start
      | Ok [] => Ret start
      | Ok h =>
          match Reverse_SortByRevision h with
          | [] => Ret start
          | rel :: _ =>
              let st := StatusCode rel in
              if reuse && (Status_Code_eqb st Status_DELETED
                           || Status_Code_eqb st Status_FAILED) then Ret start
              else if reuse then Fail "" "cannot re-use a name that is still in use"
              else Fail "" ("a release named " ++ start ++ " already exists.")
          end
      end
  else try_generate 0 maxTries.

End Allocator.
End UniqName.

(** ** Byte-level helpers: [strings.TrimSpace], [strings.ToLower],
    [strings.Split], [path.Base], [strconv.Atoi] (on ASCII text). *)
Module GoText.

Definition is_space (c : ascii) : bool :=
  let n := nat_of_ascii c in
  Nat.eqb n 32 || Nat.eqb n 9 || Nat.eqb n 10 || Nat.eqb n 11
  || Nat.eqb n 12 || Nat.eqb n 13.

Fixpoint drop_spaces (l : list ascii) : list ascii :=
  match l with
  | c :: l' => if is_space c then drop_spaces l' else l
  | [] => []
  end.

Definition TrimSpace (s : string) : string :=
  string_of_list_ascii
    (rev (drop_spaces (rev (drop_spaces (list_ascii_of_string s))))).

Definition lower_ascii (c : ascii) : ascii :=
  let n := nat_of_ascii c in
  if Nat.leb 65 n && Nat.leb n 90 then ascii_of_nat (n + 32) else c.

Fixpoint ToLower (s : string) : string :=
  match s with
  | EmptyString => EmptyString
  | String c s' => String (lower_ascii c) (ToLower s')
  end.

(** [strings.Split(s, sep)] for a one-byte separator. *)
Fixpoint Split (s : string) (sep : ascii) : list string :=
  match s with
  | EmptyString => [EmptyString]
  | String c s' =>
      if Ascii.eqb c sep then EmptyString :: Split s' sep
      else match Split s' sep with
           | x :: xs => String c x :: xs
           | [] => [String c EmptyString]
           end
  end.

Definition slash : ascii := "/"%char.

Fixpoint drop_slashes (l : list ascii) : list ascii :=
  match l with
  | c :: l' => if Ascii.eqb c slash then drop_slashes l' else l
  | [] => []
  end.

Fixpoint take_to_slash (l : list ascii) : list ascii :=
  match l with
  | c :: l' => if Ascii.eqb c slash then [] else c :: take_to_slash l'
  | [] => []
  end.

(** [path.Base]: strip trailing slashes, keep what follows the last one. *)
Definition Base (p : string) : string :=
  if p =? "" then "."
  else
    match drop_slashes (rev (list_ascii_of_string p)) with
    | [] => "/"
    | r => string_of_list_ascii (rev (take_to_slash r))
    end.

Definition digit (c : ascii) : option Z :=
  let n := nat_of_ascii c in
  if Nat.leb 48 n && Nat.leb n 57 then Some (Z.of_nat (n - 48)) else None.

Fixpoint digits (s : string) (acc : Z) : option Z :=
  match s with
  | EmptyString => Some acc
  | String c s' =>
      match digit c with
      | Some d => digits s' (acc * 10 + d)%Z
      | None => None
      end
  end.

(** [strconv.Atoi] on a 64-bit platform: optional sign, at least one
    decimal digit, result in the [int64] range. *)
Definition Atoi (s : string) : errorOr Z :=
  let '(neg, body) :=
    match s with
    | String c b =>
        if Ascii.eqb c "+"%char then (false, b)
        else if Ascii.eqb c "-"%char then (true, b) else (false, s)
    | EmptyString => (false, s)
    end in
  match body with
  | EmptyString => Err "invalid syntax"
  | _ =>
      match digits body 0%Z with
      | None => Err "invalid syntax"
      | Some v =>
          let v' := if neg then (- v)%Z else v in
          if ((v' <? - 2 ^ 63) || (2 ^ 63 - 1 <? v'))%Z
          then Err "value out of range" else Ok v'
      end
  end.

(** The conversion [int32(x)] (two's-complement wrap-around). *)
Definition int32_of (z : Z) : Z := ((z + 2 ^ 31) mod 2 ^ 32 - 2 ^ 31)%Z.

End GoText.

(** ** The manifest classifier (sortManifests, manifestFile.sort) and the hook
    executor (execHook) of release_server.go *)
Module Classifier.
Import GoStrings GoText.

(** [util.SimpleHead]: [apiVersion], [kind] and [metadata] with its name and
    annotations (a Go map; nil and empty behave alike for the code). *)
Record Metadata := mkMetadata { MName : string; Annotations : list (string * string) }.
Record SimpleHead := mkSimpleHead {
  HVersion : string;
  Kind : string;
  HMetadata : option Metadata
}.

Fixpoint lookup (k : string) (m : list (string * string)) : option string :=
  match m with
  | [] => None
  | (k', v) :: m' => if k' =? k then Some v else lookup k m'
  end.

(** [release.Hook_Event]. *)
Inductive Hook_Event :=
| Hook_PRE_INSTALL | Hook_POST_INSTALL | Hook_PRE_DELETE | Hook_POST_DELETE
| Hook_PRE_UPGRADE | Hook_POST_UPGRADE | Hook_PRE_ROLLBACK | Hook_POST_ROLLBACK
| Hook_RELEASE_TEST_SUCCESS | Hook_RELEASE_TEST_FAILURE.

Definition Hook_Event_eqb (a b : Hook_Event) : bool :=
  match a, b with
  | Hook_PRE_INSTALL, Hook_PRE_INSTALL | Hook_POST_INSTALL, Hook_POST_INSTALL
  | Hook_PRE_DELETE, Hook_PRE_DELETE | Hook_POST_DELETE, Hook_POST_DELETE
  | Hook_PRE_UPGRADE, Hook_PRE_UPGRADE | Hook_POST_UPGRADE, Hook_POST_UPGRADE
  | Hook_PRE_ROLLBACK, Hook_PRE_ROLLBACK | Hook_POST_ROLLBACK, Hook_POST_ROLLBACK
  | Hook_RELEASE_TEST_SUCCESS, Hook_RELEASE_TEST_SUCCESS
  | Hook_RELEASE_TEST_FAILURE, Hook_RELEASE_TEST_FAILURE => true
  | _, _ => false
  end.

(** Modelled from the spec: the constants of the hooks package (the event
    names of the spec's section 6 and the two annotation keys). *)
Definition HookAnno : string := "helm.sh/hook".
Definition HookWeightAnno : string := "helm.sh/hook-weight".

(** The [events] map of the tiller package. *)
Definition events : list (string * Hook_Event) :=
  [("pre-install", Hook_PRE_INSTALL); ("post-install", Hook_POST_INSTALL);
   ("pre-delete", Hook_PRE_DELETE); ("post-delete", Hook_POST_DELETE);
   ("pre-upgrade", Hook_PRE_UPGRADE); ("post-upgrade", Hook_POST_UPGRADE);
   ("pre-rollback", Hook_PRE_ROLLBACK); ("post-rollback", Hook_POST_ROLLBACK);
   ("release-test-success", Hook_RELEASE_TEST_SUCCESS);
   ("release-test-failure", Hook_RELEASE_TEST_FAILURE)].

Fixpoint lookup_event (k : string) (m : list (string * Hook_Event)) : option Hook_Event :=
  match m with
  | [] => None
  | (k', v) :: m' => if k' =? k then Some v else lookup_event k m'
  end.

(** [release.Hook]; [LastRun] is unset ([None]) until the hook has run. *)
Record Hook := mkHook {
  HName : string;
  HKind : string;
  HPath : string;
  HManifest : string;
  Events : list Hook_Event;
  Weight : Z;
  LastRun : option Z
}.

Definition set_last_run (h : Hook) (t : Z) : Hook :=
  mkHook (HName h) (HKind h) (HPath h) (HManifest h) (Events h) (Weight h) (Some t).

(** [manifest] and [result]. *)
Record manifest := mkManifest { name : string; content : string; head : SimpleHead }.
Record result := mkResult { hooks : list Hook; generic : list manifest }.

Definition add_generic (r : result) (m : manifest) : result :=
  mkResult (hooks r) (generic r ++ [m]).
Definition add_hook (r : result) (h : Hook) : result :=
  mkResult (hooks r ++ [h]) (generic r).

(** Modelled from the spec: [chartutil.VersionSet] is the set of API
    versions of the capabilities, and [Has] is membership. *)
Definition VersionSet := list string.
Definition Has (vs : VersionSet) (v : string) : bool := existsb (String.eqb v) vs.

Definition hasAnyAnnotation (entry : SimpleHead) : bool :=
  match HMetadata entry with
  | None => false
  | Some md => match Annotations md with [] => false | _ => true end
  end.

Definition annotations_of (entry : SimpleHead) : list (string * string) :=
  match HMetadata entry with Some md => Annotations md | None => [] end.

Definition calculateHookWeight (entry : SimpleHead) : Z :=
  let hws := match lookup HookWeightAnno (annotations_of entry) with
             | Some v => v | None => "" end in
  match Atoi hws with
  | Ok hw => int32_of hw
  | Err _ => 0%Z
  end.

(** The loop over [strings.Split(hookTypes, ",")]: the flag [isKnownHook]
    and the events appended to [h.Events]. *)
Fixpoint collect_events (types : list string) (isKnownHook : bool)
  (evs : list Hook_Event) : bool * list Hook_Event :=
  match types with
  | [] => (isKnownHook, evs)
  | t :: ts =>
      match lookup_event (ToLower (TrimSpace t)) events with
      | Some e => collect_events ts true (evs ++ [e])
      | None => collect_events ts isKnownHook evs
      end
  end.

Record manifestFile := mkManifestFile {
  entries : list string;
  path : string;
  apis : VersionSet
}.

Section Sorting.
(** [yaml.Unmarshal] of a document into a [util.SimpleHead] (ghodss/yaml). *)
Variable Unmarshal : string -> errorOr SimpleHead.

Fixpoint sort_entries (fpath : string) (vs : VersionSet) (ms : list string)
  (r : result) : result * option string :=
  match ms with
  | [] => (r, None)
  | m :: ms' =>
      match Unmarshal m with
      | Err e => (r, Some ("YAML parse error on " ++ fpath ++ ": " ++ e))
      | Ok entry =>
          if negb (HVersion entry =? "") && negb (Has vs (HVersion entry)) then
            (r, Some ("apiVersion " ++ quote (HVersion entry) ++ " in " ++ fpath
                      ++ " is not available"))
          else if negb (hasAnyAnnotation entry) then
            sort_entries fpath vs ms' (add_generic r (mkManifest fpath m entry))
          else
            match lookup HookAnno (annotations_of entry) with
            | None =>
                sort_entries fpath vs ms' (add_generic r (mkManifest fpath m entry))
            | Some hookTypes =>
                let hw := calculateHookWeight entry in
                let '(isKnownHook, evs) :=
                  collect_events (Split hookTypes ","%char) false [] in
                if negb isKnownHook then sort_entries fpath vs ms' r
                else
                  sort_entries fpath vs ms'
                    (add_hook r (mkHook (match HMetadata entry with
                                         | Some md => MName md | None => "" end)
                                        (Kind entry) fpath m evs hw None))
            end
      end
  end.

(** [manifestFile.sort]: mutates [*result]; returns the result after the
    call and the error. *)
Definition sort (file : manifestFile) (r : result) : result * option string :=
  sort_entries (path file) (apis file) (entries file) r.

(** [util.SplitManifests] and [sortByKind] (releaseutil and kind_sorter.go):
    the classifier is stated for every splitter and every kind sort. *)
Variable SplitManifests : string -> list string.
Variable SortOrder : Type.
Variable sortByKind : list manifest -> SortOrder -> list manifest.

(** The loop of [sortManifests] over the files map, in its iteration order. *)
Fixpoint sort_files (files : list (string * string)) (vs : VersionSet)
  (so : SortOrder) (r : result) : list Hook * list manifest * option string :=
  match files with
  | [] => (hooks r, sortByKind (generic r) so, None)
  | (filePath, c) :: files' =>
      if prefix "_" (Base filePath) then sort_files files' vs so r
      else if TrimSpace c =? "" then sort_files files' vs so r
      else
        match sort (mkManifestFile (SplitManifests c) filePath vs) r with
        | (r', Some e) => (hooks r', generic r', Some e)
        | (r', None) => sort_files files' vs so r'
        end
  end.

Definition sortManifests (files : list (string * string)) (vs : VersionSet)
  (so : SortOrder) : list Hook * list manifest * option string :=
  sort_files files vs so (mkResult [] []).

End Sorting.
End Classifier.

(** ** [ReleaseServer.execHook] (release_server.go) *)
Module HookExec.
Import Classifier.

(** The hooks passed to [execHook] are pointers shared with the release:
    the store is the list [hs] and a pointer is an index into it. *)

(** The hooks bound to [code], in the order of the nested loops (a hook
    bound twice to [code] is selected twice). *)
Fixpoint executing (hs : list Hook) (i : nat) (code : Hook_Event) : list nat :=
  match hs with
  | [] => []
  | h :: hs' =>
      (flat_map (fun e => if Hook_Event_eqb e code then [i] else []) (Events h)
       ++ executing hs' (S i) code)%list
  end.

(** Modelled from the spec: [sortByHookWeight] (hook_sorter.go) orders hooks
    by weight ascending, then by name ascending. Insertion sort. *)
Definition hook_le (a b : Hook) : bool :=
  (Weight a <? Weight b)%Z
  || ((Weight a =? Weight b)%Z
      && match String.compare (HName a) (HName b) with Gt => false | _ => true end).

Definition hook_at (hs : list Hook) (i : nat) : option Hook := nth_error hs i.

Fixpoint insert_by_weight (hs : list Hook) (i : nat) (l : list nat) : list nat :=
  match l with
  | [] => [i]
  | j :: l' =>
      match hook_at hs i, hook_at hs j with
      | Some a, Some b =>
          if hook_le a b then i :: l else j :: insert_by_weight hs i l'
      | _, _ => i :: l
      end
  end.

Fixpoint sortByHookWeight (hs : list Hook) (l : list nat) : list nat :=
  match l with
  | [] => []
  | i :: l' => insert_by_weight hs i (sortByHookWeight hs l')
  end.

Fixpoint replace_at (hs : list Hook) (i : nat) (h : Hook) : list Hook :=
  match hs, i with
  | [], _ => []
  | _ :: hs', O => h :: hs'
  | x :: hs', S i' => x :: replace_at hs' i' h
  end.

(** A call made to the kube client. *)
Inductive kube_call :=
| CallCreate (namespace manifest : string)
| CallWatchUntilReady (namespace manifest : string).

Section Exec.
(** [kubeCli.Create] and [kubeCli.WatchUntilReady] (the error they return)
    and [timeconv.Now()]. *)
Variable Create : string -> string -> Z -> bool -> option string.
Variable WatchUntilReady : string -> string -> Z -> bool -> option string.
Variable Now : Z.

(** The loop over [executingHooks]: the hook store, the calls made, the
    error returned. *)
Fixpoint run_hooks (namespace : string) (timeout : Z) (idx : list nat)
  (hs : list Hook) (calls : list kube_call)
  : list Hook * list kube_call * option string :=
  match idx with
  | [] => (hs, calls, None)
  | i :: idx' =>
      match hook_at hs i with
      | None => (hs, calls, None)
      | Some h =>
          let calls1 := (calls ++ [CallCreate namespace (HManifest h)])%list in
          match Create namespace (HManifest h) timeout false with
          | Some e => (hs, calls1, Some e)
          | None =>
              let calls2 := (calls1 ++ [CallWatchUntilReady namespace (HManifest h)])%list in
              match WatchUntilReady namespace (HManifest h) timeout false with
              | Some e => (hs, calls2, Some e)
              | None =>
                  run_hooks namespace timeout idx' (replace_at hs i (set_last_run h Now))
                    calls2
              end
          end
      end
  end.

Definition execHook (hs : list Hook) (name namespace hook : string) (timeout : Z)
  : list Hook * list kube_call * option string :=
  match lookup_event hook events with
  | None => (hs, [], Some ("unknown hook " ++ hook))
  | Some code =>
      run_hooks namespace timeout (sortByHookWeight hs (executing hs 0 code)) hs []
  end.

End Exec.
End HookExec.

(** ** The repositories file of the repo package (repofile.go) *)
Module Repo.

(** [repo.Entry] (chartrepo.go). *)
Record Entry := mkEntry {
  Name : string;
  Cache : string;
  URL : string;
  CertFile : string;
  KeyFile : string;
  CAFile : string
}.

(** [RepoFile]; [Generated] is a timestamp. *)
Record RepoFile := mkRepoFile {
  APIVersion : string;
  Generated : Z;
  Repositories : list Entry
}.

Definition set_repositories (r : RepoFile) (l : list Entry) : RepoFile :=
  mkRepoFile (APIVersion r) (Generated r) l.

(** Modelled from the spec: [APIVersionV1] (index.go), the non-empty API
    version of the current format. *)
Definition APIVersionV1 : string := "v1".

Definition ErrRepoOutOfDate : string := "repository file is out of date".

(** [Add]: [append(r.Repositories, re...)]. *)
Definition Add (r : RepoFile) (re : list Entry) : RepoFile :=
  set_repositories r (Repositories r ++ re).

(** The inner loop of [Update]: the slice after [r.Repositories[j] = target]
    at the first [j] whose name matches, and the flag [found]. *)
Fixpoint update_one (repos : list Entry) (target : Entry) : list Entry * bool :=
  match repos with
  | [] => ([], false)
  | repo :: rest =>
      if Name repo =? Name target then (target :: rest, true)
      else let '(rest', found) := update_one rest target in (repo :: rest', found)
  end.

Definition Update (r : RepoFile) (re : list Entry) : RepoFile :=
  fold_left
    (fun r target =>
       let '(repos', found) := update_one (Repositories r) target in
       if found then set_repositories r repos' else Add r [target])
    re r.

Definition Has (r : RepoFile) (name : string) : bool :=
  existsb (fun rf => Name rf =? name) (Repositories r).

Section Load.
(** [ioutil.ReadFile], [time.Now()], and [yaml.Unmarshal] (ghodss/yaml) into
    a [RepoFile] and into a [map[string]string] (its pairs in the map's
    iteration order). *)
Variable ReadFile : string -> errorOr string.
Variable Now : Z.
Variable Unmarshal_RepoFile : string -> errorOr RepoFile.
Variable Unmarshal_map : string -> errorOr (list (string * string)).

Definition NewRepoFile : RepoFile := mkRepoFile APIVersionV1 Now [].

(** [LoadRepositoriesFile]: the [*RepoFile] ([None] for nil) and the error. *)
Definition LoadRepositoriesFile (p : string) : option RepoFile * option string :=
  match ReadFile p with
  | Err e => (None, Some e)
  | Ok b =>
      match Unmarshal_RepoFile b with
      | Err e => (None, Some e)
      | Ok r =>
          if APIVersion r =? "" then
            match Unmarshal_map b with
            | Err e => (None, Some e)
            | Ok m =>
                (Some (fold_left
                         (fun r '(k, v) => Add r [mkEntry k (k ++ "-index.yaml") v "" "" ""])
                         m NewRepoFile),
                 Some ErrRepoOutOfDate)
            end
          else (Some r, None)
      end
  end.

End Load.
End Repo.

(** ** [RepoFile.Remove] (repofile.go) *)
Module RepoOps.
Import Repo.

(** [Remove]: the file after [r.Repositories = cp] and the flag [found]. *)
Definition Remove (r : RepoFile) (name : string) : RepoFile * bool :=
  let '(cp, found) :=
    fold_left
      (fun '(cp, found) rf =>
         if Name rf =? name then (cp, true) else ((cp ++ [rf])%list, found))
      (Repositories r) ([], false) in
  (set_repositories r cp, found).

End RepoOps.

(** ** Regular expressions, for [ValidName] (release_server.go) *)
Module Regex.

(** Regular expressions over bytes; a character class is a predicate. *)
Inductive re :=
| Void
| Eps
| Class (f : ascii -> bool)
| Cat (a b : re)
| Alt (a b : re)
| Star (a : re).

(** [r?] and [r+]. *)
Definition Opt (r : re) : re := Alt Eps r.
Definition Plus (r : re) : re := Cat r (Star r).

(** The language of a regular expression. *)
Inductive in_re : re -> list ascii -> Prop :=
| in_eps : in_re Eps []
| in_class (f : ascii -> bool) (c : ascii) : f c = true -> in_re (Class f) [c]
| in_cat (a b : re) (w1 w2 : list ascii) :
    in_re a w1 -> in_re b w2 -> in_re (Cat a b) (w1 ++ w2)
| in_alt_l (a b : re) (w : list ascii) : in_re a w -> in_re (Alt a b) w
| in_alt_r (a b : re) (w : list ascii) : in_re b w -> in_re (Alt a b) w
| in_star_nil (a : re) : in_re (Star a) []
| in_star_cons (a : re) (w1 w2 : list ascii) :
    in_re a w1 -> in_re (Star a) w2 -> in_re (Star a) (w1 ++ w2).

(** Matching by Brzozowski derivatives. *)
Fixpoint nullable (r : re) : bool :=
  match r with
  | Void | Class _ => false
  | Eps | Star _ => true
  | Cat a b => nullable a && nullable b
  | Alt a b => nullable a || nullable b
  end.

Fixpoint deriv (c : ascii) (r : re) : re :=
  match r with
  | Void | Eps => Void
  | Class f => if f c then Eps else Void
  | Cat a b =>
      if nullable a then Alt (Cat (deriv c a) b) (deriv c b) else Cat (deriv c a) b
  | Alt a b => Alt (deriv c a) (deriv c b)
  | Star a => Cat (deriv c a) (Star a)
  end.

Fixpoint matches (r : re) (w : list ascii) : bool :=
  match w with
  | [] => nullable r
  | c :: w' => matches (deriv c r) w'
  end.

(** [regexp.MatchString] of a pattern anchored by [^] and [$]. *)
Definition MatchString (r : re) (s : string) : bool := matches r (list_ascii_of_string s).

End Regex.

(** ** [validateReleaseName] (release_server.go) *)
Module ReleaseName.
Import Regex.

Definition in_range (lo hi : nat) (c : ascii) : bool :=
  Nat.leb lo (nat_of_ascii c) && Nat.leb (nat_of_ascii c) hi.

(** [[A-Za-z0-9]] and [[-A-Za-z0-9_.]]. *)
Definition alnum (c : ascii) : bool :=
  in_range 65 90 c || in_range 97 122 c || in_range 48 57 c.
Definition name_char (c : ascii) : bool :=
  Ascii.eqb c "-"%char || alnum c || Ascii.eqb c "_"%char || Ascii.eqb c "."%char.

(** One group of [ValidName]. *)
Definition name_group : re :=
  Cat (Opt (Cat (Class alnum) (Star (Class name_char)))) (Class alnum).

(** [ValidName]: one or more groups, each an optional alphanumeric followed by
    any run of [[-A-Za-z0-9_.]], then an alphanumeric; anchored at both ends. *)
Definition ValidName : re := Plus name_group.

Definition errMissingRelease : string := "no release provided".
Definition errInvalidName : string :=
  "invalid release name, must match regex ^(([A-Za-z0-9][-A-Za-z0-9_.]*)?[A-Za-z0-9])+$ and the length must not longer than 53".

(** [validateReleaseName]: the error, [None] for nil. *)
Definition validateReleaseName (releaseName : string) : option string :=
  if releaseName =? "" then Some errMissingRelease
  else if negb (MatchString ValidName releaseName)
          || Nat.ltb UniqName.releaseNameMaxLen (String.length releaseName)
  then Some errInvalidName
  else None.

(** The names [ValidName] describes: non-empty, made of [[-A-Za-z0-9_.]],
    starting and ending with [[A-Za-z0-9]]. *)
Definition good_name (w : list ascii) : Prop :=
  exists c w', w = c :: w' /\ alnum c = true /\ alnum (last w c) = true /\
    Forall (fun x => name_char x = true) w.

End ReleaseName.

(** ** Name truncation in [uniqName] (release_server.go) *)
Module UniqNameOps.
Import GoStrings UniqName.

(** [if len(name) > releaseNameMaxLen { name = name[:releaseNameMaxLen] }]. *)
Definition truncated (name0 : string) : string :=
  if Nat.ltb releaseNameMaxLen (String.length name0)
  then slice_to name0 releaseNameMaxLen else name0.

End UniqNameOps.


(** ** Hooks built by [sort] (release_server.go) *)
Module SortOps.
Import Classifier.

(** A hook as [sort] builds it: with events, not yet run, an [int32] weight. *)
Definition hook_ok (h : Hook) : Prop :=
  Events h <> [] /\ LastRun h = None /\ (- 2 ^ 31 <= Weight h <= 2 ^ 31 - 1)%Z.

End SortOps.

(** ** Calls made by [execHook] (release_server.go) *)
Module HookExecOps.
Import Classifier HookExec.



End HookExecOps.


(** ** [chartutil] (chartfile.go) and the chart repository (chartrepo.go) *)
Module ChartFiles.
Import GoStrings Repo.

(** [strings.HasSuffix] and [strings.TrimSuffix]. *)
Definition HasSuffix (s suffix : string) : bool :=
  Nat.leb (String.length suffix) (String.length s)
  && (substring (String.length s - String.length suffix) (String.length suffix) s =? suffix).

Definition TrimSuffix (s suffix : string) : string :=
  if HasSuffix s suffix then substring 0 (String.length s - String.length suffix) s else s.

(** The outcome of [os.Stat]: a [FileInfo] (whether it is a directory) or an
    error, with [os.IsNotExist] of that error. *)
Inductive stat_result :=
| StatOk (isDir : bool)
| StatErr (err : string) (notExist : bool).

(** [chart.Metadata]: the field the code reads. *)
Record Metadata := mkMetadata { MetaName : string }.

(** An entry visited by [filepath.Walk]: [f.Name()] and [f.IsDir()]. *)
Record FileInfo := mkFileInfo { FName : string; FIsDir : bool }.

(** [url.URL]: the field the code reads. *)
Record ParsedURL := mkParsedURL { Scheme : string }.

(** [repo.ChartRepository], over the getter and index types. *)
Record ChartRepository (Getter IndexFile : Type) := mkChartRepository {
  Config : Entry;
  ChartPaths : list string;
  RIndexFile : IndexFile;
  Client : Getter
}.
Arguments mkChartRepository {Getter IndexFile}.
Arguments Config {Getter IndexFile}.
Arguments ChartPaths {Getter IndexFile}.
Arguments RIndexFile {Getter IndexFile}.
Arguments Client {Getter IndexFile}.

Section FileSystem.
(** [os.Stat], [ioutil.ReadFile], [filepath.Join], and [yaml.Unmarshal] into
    an empty [chart.Metadata]. *)
Variable Stat : string -> stat_result.
Variable ReadFile : string -> errorOr string.
Variable Join : string -> string -> string.
Variable yaml_Unmarshal : string -> errorOr Metadata.

(** [UnmarshalChartfile]: the [*chart.Metadata] ([None] for nil) and the error. *)
Definition UnmarshalChartfile (data : string) : option Metadata * option string :=
  match yaml_Unmarshal data with
  | Err e => (None, Some e)
  | Ok y => (Some y, None)
  end.

Definition LoadChartfile (filename : string) : option Metadata * option string :=
  match ReadFile filename with
  | Err e => (None, Some e)
  | Ok b => UnmarshalChartfile b
  end.

Definition IsChartDir (dirName : string) : bool * option string :=
  match Stat dirName with
  | StatErr e _ => (false, Some e)
  | StatOk false => (false, Some (quote dirName ++ " is not a directory"))
  | StatOk true =>
      let chartYaml := Join dirName "Chart.yaml" in
      match Stat chartYaml with
      | StatErr _ true =>
          (false, Some ("no Chart.yaml exists in directory " ++ quote dirName))
      | _ =>
          match ReadFile chartYaml with
          | Err _ => (false, Some ("cannot read Chart.Yaml in directory " ++ quote dirName))
          | Ok chartYamlContent =>
              match UnmarshalChartfile chartYamlContent with
              | (_, Some e) => (false, Some e)
              | (None, None) => (false, Some "chart metadata (Chart.yaml) missing")
              | (Some chartContent, None) =>
                  if MetaName chartContent =? "" then
                    (false, Some "invalid chart (Chart.yaml): name must not be empty")
                  else (true, None)
              end
          end
      end
  end.

Section Repository.
Variable Getter IndexFile Buffer : Type.
(** [url.Parse], [getters.ByScheme] (a getter constructor and its error),
    [NewIndexFile()]. *)
Variable url_Parse : string -> errorOr ParsedURL.
Variable ByScheme :
  string -> errorOr (string -> string -> string -> string -> Getter * option string).
Variable NewIndexFile : IndexFile.

(** [NewChartRepository]. The [err] tested after the getter constructor is
    still the one [getters.ByScheme] returned, nil on that branch; the
    constructor's own error is discarded. *)
Definition NewChartRepository (cfg : Entry)
  : option (ChartRepository Getter IndexFile) * option string :=
  match url_Parse (URL cfg) with
  | Err _ => (None, Some ("invalid chart URL format: " ++ URL cfg))
  | Ok u =>
      match ByScheme (Scheme u) with
      | Err _ => (None, Some ("Could not find protocol handler for: " ++ Scheme u))
      | Ok getterConstructor =>
          let err : option string := None in
          let '(client, _) :=
            getterConstructor (URL cfg) (CertFile cfg) (KeyFile cfg) (CAFile cfg) in
          match err with
          | Some _ => (None, Some ("Could not construct protocol handler for: " ++ Scheme u))
          | None => (Some (mkChartRepository cfg [] NewIndexFile client), None)
          end
      end
  end.

(** [filepath.Walk] from a root: the entries it visits, in order; and
    [LoadIndexFile]. *)
Variable Walk : string -> list (string * FileInfo).
Variable LoadIndexFile : string -> errorOr IndexFile.

(** The walk function of [Load] on one entry; its result is always nil. *)
Definition load_visit (r : ChartRepository Getter IndexFile) (pf : string * FileInfo)
  : ChartRepository Getter IndexFile :=
  let '(path, f) := pf in
  if negb (FIsDir f) then
    if Contains (FName f) "-index.yaml" then
      match LoadIndexFile path with
      | Err _ => r
      | Ok i => mkChartRepository (Config r) (ChartPaths r) i (Client r)
      end
    else if HasSuffix (FName f) ".tgz" then
      mkChartRepository (Config r) (ChartPaths r ++ [path]) (RIndexFile r) (Client r)
    else r
  else r.

(** The entries of the walk that [Load] records as charts. *)
Definition chart_entry (pf : string * FileInfo) : bool :=
  let '(p, f) := pf in
  negb (FIsDir f) && negb (Contains (FName f) "-index.yaml") && HasSuffix (FName f) ".tgz".

(** [ChartRepository.Load]: the repository after the call and the error. *)
Definition Load (r : ChartRepository Getter IndexFile)
  : ChartRepository Getter IndexFile * option string :=
  match Stat (Name (Config r)) with
  | StatErr e _ => (r, Some e)
  | StatOk false => (r, Some (quote (Name (Config r)) ++ " is not a directory"))
  | StatOk true => (fold_left load_visit (Walk (Name (Config r))) r, None)
  end.

(** [r.Client.Get], [ioutil.ReadAll], [loadIndex], [filepath.IsAbs] and
    [ioutil.WriteFile] (its error). *)
Variable Get : Getter -> string -> errorOr Buffer.
Variable ReadAll : Buffer -> errorOr string.
Variable loadIndex : string -> errorOr IndexFile.
Variable IsAbs : string -> bool.
Variable WriteFile : string -> string -> option string.

Definition indexURL (repoURL : string) : string := TrimSuffix repoURL "/" ++ "/index.yaml".

(** [DownloadIndexFile]: the files written (path and bytes) and the error. *)
Definition DownloadIndexFile (r : ChartRepository Getter IndexFile) (cachePath : string)
  : list (string * string) * option string :=
  match Get (Client r) (indexURL (URL (Config r))) with
  | Err e => ([], Some e)
  | Ok resp =>
      match ReadAll resp with
      | Err e => ([], Some e)
      | Ok index =>
          match loadIndex index with
          | Err e => ([], Some e)
          | Ok _ =>
              let cp := Cache (Config r) in
              let cp := if negb (IsAbs cp) then Join cachePath cp else cp in
              ([(cp, index)], WriteFile cp index)
          end
      end
  end.

End Repository.
End FileSystem.
End ChartFiles.


(** ** [renderResources] (release_server.go) *)
Module Render.
Import GoStrings Classifier.

Definition notesFileSuffix : string := "NOTES.txt".

(** The buffer written for a list of (source name, content) pairs:
    ["\n---\n# Source: " + name + "\n"] then the content, for each. *)
Definition source_blob (entries : list (string * string)) : string :=
  fold_left (fun b '(n, c) => b ++ (NL ++ "---" ++ NL ++ "# Source: " ++ n ++ NL) ++ c)
    entries "".

Section Render.
(** [path.Join]. *)
Variable PathJoin : list string -> string.

(** The loop over the rendered files that takes out the [NOTES.txt] files:
    the notes kept and the files left, in iteration order. *)
Definition notes_step (chartName : string) (acc : string * list (string * string))
  (kv : string * string) : string * list (string * string) :=
  let '(notes, fs) := acc in
  let '(k, v) := kv in
  if ChartFiles.HasSuffix k notesFileSuffix then
    ((if k =? PathJoin [chartName; "templates"; notesFileSuffix] then v else notes), fs)
  else (notes, (fs ++ [(k, v)])%list).

Definition extract_notes (chartName : string) (files : list (string * string))
  : string * list (string * string) :=
  fold_left (notes_step chartName) files ("", []).

(** The chart (its [Metadata.TillerVersion] and [Metadata.Name]), the
    values, [version.GetVersion()], [version.IsCompatibleRange], and
    [s.engine(ch).Render]. *)
Variable Chart_t Values_t : Type.
Variable TillerVersion ChartName : Chart_t -> string.
Variable sver : string.
Variable IsCompatibleRange : string -> string -> bool.
Variable Render : Chart_t -> Values_t -> errorOr (list (string * string)).
(** The parameters of [sortManifests], and [InstallOrder]. *)
Variable Unmarshal : string -> errorOr SimpleHead.
Variable SplitManifests : string -> list string.
Variable SortOrder : Type.
Variable sortByKind : list manifest -> SortOrder -> list manifest.
Variable InstallOrder : SortOrder.

(** [renderResources]: the hooks, the manifest buffer, the notes, the error
    ([None] for nil). The error path ranges over the files map again; the
    model keeps the same order. *)
Definition renderResources (ch : Chart_t) (values : Values_t) (vs : VersionSet)
  : option (list Hook) * option string * string * option string :=
  if negb (TillerVersion ch =? "") && negb (IsCompatibleRange (TillerVersion ch) sver) then
    (None, None, "", Some ("Chart incompatible with Tiller " ++ sver))
  else
    match Render ch values with
    | Err e => (None, None, "", Some e)
    | Ok files0 =>
        let '(notes, files) := extract_notes (ChartName ch) files0 in
        match sortManifests Unmarshal SplitManifests SortOrder sortByKind files vs InstallOrder with
        | (_, _, Some e) =>
            (None,
             Some (source_blob
                     (filter (fun '(_, content) => negb (GoText.TrimSpace content =? "")) files)),
             "", Some e)
        | (hooks, manifests, None) =>
            (Some hooks, Some (source_blob (map (fun m => (name m, content m)) manifests)),
             notes, None)
        end
    end.

End Render.
End Render.


(** ** The [helm repo index] command: [index] (part_000) *)
Module IndexCmd.

Section Index.
(** [repo.IndexFile], [filepath.Join], [repo.IndexDirectory],
    [repo.LoadIndexFile], [IndexFile.Merge] (on the receiver's value),
    [IndexFile.SortEntries], and the error of [IndexFile.WriteFile]. *)
Variable IndexFile : Type.
Variable Join : string -> string -> string.
Variable IndexDirectory : string -> string -> errorOr IndexFile.
Variable LoadIndexFile : string -> errorOr IndexFile.
Variable Merge : IndexFile -> IndexFile -> IndexFile.
Variable SortEntries : IndexFile -> IndexFile.
Variable WriteIndex : IndexFile -> string -> option string.

(** The index written and its path (if [WriteFile] is reached), and the
    returned error. *)
Definition index (dir url mergeTo : string) : option (IndexFile * string) * option string :=
  let out := Join dir "index.yaml" in
  match IndexDirectory dir url with
  | Err e => (None, Some e)
  | Ok i =>
      let merged :=
        if negb (mergeTo =? "") then
          match LoadIndexFile mergeTo with
          | Err e => Err ("Merge failed: " ++ e)
          | Ok i2 => Ok (Merge i i2)
          end
        else Ok i in
      match merged with
      | Err e => (None, Some e)
      | Ok i' =>
          let i'' := SortEntries i' in
          (Some (i'', out), WriteIndex i'' out)
      end
  end.

End Index.
End IndexCmd.


(** ** [ChartRepository.generateIndex] (chartrepo.go) *)
Module RepoIndex.
Import Repo ChartFiles.

Section GenerateIndex.
(** The getter and index types; [chart.Metadata] with its [Name] and
    [Version]; [chartutil.Load] (to the chart's metadata);
    [provenance.DigestFile]; [IndexFile.Has], [IndexFile.Add] (on the
    receiver's value) and [IndexFile.SortEntries]. *)
Variable Getter IndexFile : Type.
Variable ChartMeta : Type.
Variable MetaName MetaVersion : ChartMeta -> string.
Variable ChartLoad : string -> errorOr ChartMeta.
Variable DigestFile : string -> errorOr string.
Variable IHas : IndexFile -> string -> string -> bool.
Variable IAdd : IndexFile -> ChartMeta -> string -> string -> string -> IndexFile.
Variable SortEntries : IndexFile -> IndexFile.

(** The loop over [r.ChartPaths]: the index reached and the error that
    stopped it. *)
Fixpoint index_charts (url : string) (paths : list string) (idx : IndexFile)
  : IndexFile * option string :=
  match paths with
  | [] => (idx, None)
  | p :: ps =>
      match ChartLoad p with
      | Err e => (idx, Some e)
      | Ok md =>
          match DigestFile p with
          | Err e => (idx, Some e)
          | Ok digest =>
              index_charts url ps
                (if negb (IHas idx (MetaName md) (MetaVersion md))
                 then IAdd idx md p url digest else idx)
          end
      end
  end.

(** [generateIndex]: the repository with its index updated in place (also
    when the loop stops on an error), and the error. *)
Definition generateIndex (r : ChartRepository Getter IndexFile)
  : ChartRepository Getter IndexFile * option string :=
  match index_charts (URL (Config r)) (ChartPaths r) (RIndexFile r) with
  | (idx, Some e) => (mkChartRepository (Config r) (ChartPaths r) idx (Client r), Some e)
  | (idx, None) =>
      (mkChartRepository (Config r) (ChartPaths r) (SortEntries idx) (Client r), None)
  end.

End GenerateIndex.
End RepoIndex.


(** ** Fixtures: concrete documents and the library results on them *)
Module Fixtures.
Import Classifier.

(** A ConfigMap whose hook annotation names only an unknown event. *)
Definition doc_bogus_hook : string :=
  "apiVersion: v1" ++ NL ++ "kind: ConfigMap" ++ NL ++ "metadata:" ++ NL
  ++ "  name: cm" ++ NL ++ "  annotations:" ++ NL
  ++ "    helm.sh/hook: bogus-event" ++ NL.

(** A ConfigMap with no annotation. *)
Definition doc_plain : string :=
  "apiVersion: v1" ++ NL ++ "kind: ConfigMap" ++ NL ++ "metadata:" ++ NL
  ++ "  name: plain" ++ NL.

(** A Job bound to [pre-install] and an unknown event, weight 5. *)
Definition doc_hook : string :=
  "apiVersion: v1" ++ NL ++ "kind: Job" ++ NL ++ "metadata:" ++ NL
  ++ "  name: job" ++ NL ++ "  annotations:" ++ NL
  ++ "    helm.sh/hook: pre-install,bogus-event" ++ NL
  ++ "    helm.sh/hook-weight: " ++ GoStrings.DQ ++ "5" ++ GoStrings.DQ ++ NL.

(** A document declaring an API version missing from the capabilities. *)
Definition doc_bad_version : string :=
  "apiVersion: bogus/v1" ++ NL ++ "kind: Widget" ++ NL ++ "metadata:" ++ NL
  ++ "  name: w" ++ NL.

(** [yaml.Unmarshal] into a [util.SimpleHead], on the documents above. *)
Definition Unmarshal (d : string) : errorOr SimpleHead :=
  if d =? doc_bogus_hook then
    Ok (mkSimpleHead "v1" "ConfigMap"
          (Some (mkMetadata "cm" [("helm.sh/hook", "bogus-event")])))
  else if d =? doc_plain then
    Ok (mkSimpleHead "v1" "ConfigMap" (Some (mkMetadata "plain" [])))
  else if d =? doc_hook then
    Ok (mkSimpleHead "v1" "Job"
          (Some (mkMetadata "job" [("helm.sh/hook", "pre-install,bogus-event");
                                   ("helm.sh/hook-weight", "5")])))
  else if d =? doc_bad_version then
    Ok (mkSimpleHead "bogus/v1" "Widget" (Some (mkMetadata "w" [])))
  else Err "error converting YAML to JSON".

(** [util.SplitManifests] on single-document files. *)
Definition SplitOne (c : string) : list string := [c].

Definition sortByKind_id (l : list manifest) (_ : unit) : list manifest := l.

Import Hapi.

(** An upgrade with [--reuse-values] that also supplies its own values. *)
Definition req_reuse : UpdateReleaseRequest :=
  mkUpdateReleaseRequest "r" (mkChart "c" [] (Some (mkConfig "name: default")))
    (Some (mkConfig "name: new")) false true.

(** An upgrade with neither flag and no values of its own. *)
Definition req_plain : UpdateReleaseRequest :=
  mkUpdateReleaseRequest "r" (mkChart "c" [] None) None false false.

(** The prior release, stored with the raw configuration [name: old]. *)
Definition rel_prior : Release :=
  mkRelease "r" 1 Status_DEPLOYED (mkChart "c" [] (Some (mkConfig "name: default")))
    (Some (mkConfig "name: old")).

(** [chartutil.CoalesceValues] and [Values.YAML] on the prior release: the
    defaults [name: default] under [name: old] coalesce to [name: old]. *)
Definition CoalesceValues_prior (_ : Chart) (_ : option Config) : errorOr string :=
  Ok "name: old".
Definition YAML_prior (v : string) : errorOr string := Ok (v ++ NL).

(** The history of the release [web]: revision 1 superseded, revision 2
    deleted; no other name has a history. *)
Definition web_v1 : Release :=
  mkRelease "web" 1 Status_SUPERSEDED (mkChart "c" [] None) None.
Definition web_v2 : Release :=
  mkRelease "web" 2 Status_DELETED (mkChart "c" [] None) None.
Definition History_web (n : string) : errorOr (list Release) :=
  if n =? "web" then Ok [web_v1; web_v2] else Err "release: not found".

(** The storage holds [happy-panda]; moniker always generates that name. *)
Definition Get_taken (n : string) (_ : Z) : errorOr Release :=
  if n =? "happy-panda" then Ok (mkRelease "happy-panda" 1 Status_DEPLOYED
                                   (mkChart "c" [] None) None)
  else Err ("release: " ++ n ++ " not found").
Definition NameSep_fixed (_ : nat) : string := "happy-panda".

(** A pre-install hook that has not run yet. *)
Definition job_hook : Hook :=
  mkHook "job" "Job" "templates/job.yaml" doc_hook [Hook_PRE_INSTALL] 5 None.

(** A kube client on which every call succeeds. *)
Definition kube_ok (_ _ : string) (_ : Z) (_ : bool) : option string := None.

(** A repositories file in the legacy format (a name to URL mapping), and a
    file in the current layout that lacks its [apiVersion]. *)
Definition legacy_file : string :=
  "stable: https://kubernetes-charts.storage.googleapis.com" ++ NL.
Definition no_version_file : string := "repositories: []" ++ NL.

Definition ReadFile_legacy (_ : string) : errorOr string := Ok legacy_file.
Definition ReadFile_no_version (_ : string) : errorOr string := Ok no_version_file.

(** [yaml.Unmarshal] into a [RepoFile] (unknown keys are ignored) and into a
    [map[string]string] (a list value is a type error), on these files. *)
Definition Unmarshal_RepoFile (b : string) : errorOr Repo.RepoFile :=
  if (b =? legacy_file) || (b =? no_version_file) then Ok (Repo.mkRepoFile "" 0 [])
  else Err "error converting YAML to JSON".
Definition Unmarshal_map (b : string) : errorOr (list (string * string)) :=
  if b =? legacy_file then
    Ok [("stable", "https://kubernetes-charts.storage.googleapis.com")]
  else if b =? no_version_file then
    Err "error unmarshaling JSON: json: cannot unmarshal array into Go value of type string"
  else Err "error converting YAML to JSON".

End Fixtures.

(** ** Predicates of the spec *)
Module Props.
Import Hapi.

(** "Empty/blank": unset, zero-length, or exactly ["{}\n"]. *)
Definition blank (c : option Config) : Prop :=
  c = None \/ exists v, c = Some v /\ (Raw v = "" \/ Raw v = "{}" ++ NL).

Definition req_blank_b (c : option Config) : bool :=
  match c with
  | None => true
  | Some v => (Raw v =? "") || (Raw v =? "{}" ++ NL)
  end.

Definition cur_set_b (c : option Config) : bool :=
  match c with
  | None => false
  | Some c => negb (Raw c =? "") && negb (Raw c =? "{}" ++ NL)
  end.

Import Classifier.

(** A document is rejected by the classifier: its header does not parse,
    or it declares an API version missing from [vs]. *)
Definition bad_doc (Unmarshal : string -> errorOr SimpleHead) (vs : VersionSet)
  (d : string) : Prop :=
  (exists msg, Unmarshal d = Err msg) \/
  (exists h, Unmarshal d = Ok h /\ HVersion h <> "" /\ Has vs (HVersion h) = false).

(** [e] is the error raised for the rejected document [d] of the file [p]:
    it names [p], and the API version in the second case. *)
Definition doc_error (Unmarshal : string -> errorOr SimpleHead) (vs : VersionSet)
  (d p e : string) : Prop :=
  (exists msg, Unmarshal d = Err msg /\ e = "YAML parse error on " ++ p ++ ": " ++ msg) \/
  (exists h, Unmarshal d = Ok h /\ HVersion h <> "" /\ Has vs (HVersion h) = false /\
     e = "apiVersion " ++ GoStrings.quote (HVersion h) ++ " in " ++ p ++ " is not available").

(** No name of the comma-separated list is a recognized event. *)
Definition no_known_event (hookTypes : string) : Prop :=
  Forall (fun t => lookup_event (GoText.ToLower (GoText.TrimSpace t)) events = None)
    (GoText.Split hookTypes ","%char).

End Props.

(** ** Fixtures for the further properties *)
Module Fixtures2.

Definition stable : Repo.Entry :=
  Repo.mkEntry "stable" "stable-index.yaml" "https://kubernetes-charts.storage.googleapis.com"
    "" "" "".
Definition incubator : Repo.Entry :=
  Repo.mkEntry "incubator" "incubator-index.yaml"
    "https://kubernetes-charts-incubator.storage.googleapis.com" "" "" "".
Definition repos_stable : Repo.RepoFile := Repo.mkRepoFile "v1" 0 [stable].


(** [url.Parse] and the registered getters on an https repository whose
    client certificate is missing: the constructor reports an error. *)
Definition secure : Repo.Entry :=
  Repo.mkEntry "secure" "secure-index.yaml" "https://charts.example.com"
    "client.crt" "client.key" "".
Definition url_Parse (_ : string) : errorOr ChartFiles.ParsedURL :=
  Ok (ChartFiles.mkParsedURL "https").
Definition https_getter (_ _ _ _ : string) : unit * option string :=
  (tt, Some "open client.crt: no such file or directory").
Definition ByScheme (scheme : string)
  : errorOr (string -> string -> string -> string -> unit * option string) :=
  if scheme =? "https" then Ok https_getter
  else Err ("scheme " ++ scheme ++ " not supported").

(** [path.Join] on clean, non-empty elements. *)
Definition join_slash (l : list string) : string := String.concat "/" l.

(** A rendered chart [web] with its own notes, a subchart's notes, a hook and
    a plain ConfigMap. *)
Definition rendered : list (string * string) :=
  [("web/templates/NOTES.txt", "Visit the app");
   ("web/charts/db/templates/NOTES.txt", "db notes");
   ("web/templates/job.yaml", Fixtures.doc_hook);
   ("web/templates/cm.yaml", Fixtures.doc_plain)].

Definition render_ok (_ _ : unit) : errorOr (list (string * string)) := Ok rendered.


(** Release storage whose lookups miss, with the storage driver's error
    [release: %q not found]. *)
Definition Get_free (n : string) (_ : Z) : errorOr Hapi.Release :=
  Err ("release: " ++ GoStrings.quote n ++ " not found").
(** Release storage whose lookups fail for another reason. *)
Definition Get_forbidden (n : string) (_ : Z) : errorOr Hapi.Release :=
  Err "configmaps is forbidden".

End Fixtures2.

(** * Theorems *)
Import Hapi ReuseValues Props.

Lemma req_blank_b_iff (c : option Config) : req_blank_b c = true <-> blank c.
Proof.
  unfold req_blank_b, blank; destruct c as [v|]; split.
  - intro H; right; exists v; split; [reflexivity|].
    apply orb_true_iff in H; destruct H as [H|H];
      apply String.eqb_eq in H; auto.
  - intros [H|[w [Hw H]]]; [discriminate|]. injection Hw as <-.
    apply orb_true_iff; destruct H as [H|H]; rewrite H;
      [left|right]; apply String.eqb_refl.
  - intros _; left; reflexivity.
  - intros _; reflexivity.
Qed.

Lemma cur_set_b_iff (c : option Config) : cur_set_b c = true <-> ~ blank c.
Proof.
  rewrite <- req_blank_b_iff. unfold cur_set_b, req_blank_b.
  destruct c as [v|]; [|split; [discriminate|intro H; exfalso; apply H; reflexivity]].
  destruct (Raw v =? ""), (Raw v =? "{}" ++ NL); simpl; split; congruence.
Qed.

Lemma reuseValues_no_flags_eq (V : Type) (CV : Chart -> option Config -> errorOr V)
  (YAML : V -> errorOr string) (req : UpdateReleaseRequest) (current : Release) :
  ResetValues req = false -> ReuseValues req = false ->
  reuseValues V CV YAML req current =
  (if req_blank_b (Values req) && cur_set_b (RConfig current)
   then (set_req_values req (RConfig current), None) else (req, None)).
Proof. intros H1 H2; unfold reuseValues; rewrite H1, H2; reflexivity. Qed.

(** C7: with neither flag set, an empty/blank request configuration is
    replaced by the prior release's stored configuration, verbatim, when that
    one is not blank; in every other case the request is left unchanged. *)
Theorem reuseValues_carry_forward (V : Type) (CV : Chart -> option Config -> errorOr V)
  (YAML : V -> errorOr string) (req : UpdateReleaseRequest) (current : Release) :
  ResetValues req = false -> ReuseValues req = false ->
  (blank (Values req) /\ ~ blank (RConfig current) ->
   reuseValues V CV YAML req current = (set_req_values req (RConfig current), None)) /\
  (~ (blank (Values req) /\ ~ blank (RConfig current)) ->
   reuseValues V CV YAML req current = (req, None)).
Proof.
  intros H1 H2; rewrite (reuseValues_no_flags_eq V CV YAML req current H1 H2).
  split.
  - intros [Hb Hc]. apply req_blank_b_iff in Hb. apply cur_set_b_iff in Hc.
    rewrite Hb, Hc; reflexivity.
  - intros Hn. destruct (req_blank_b (Values req)) eqn:Hb;
      destruct (cur_set_b (RConfig current)) eqn:Hc; try reflexivity.
    exfalso; apply Hn; split;
      [apply req_blank_b_iff | apply cur_set_b_iff]; assumption.
Qed.

Lemma reuseValues_carry_forward_witness :
  ResetValues Fixtures.req_plain = false /\ ReuseValues Fixtures.req_plain = false /\
  ((blank (Values Fixtures.req_plain) /\ ~ blank (RConfig Fixtures.rel_prior) ->
    reuseValues string Fixtures.CoalesceValues_prior Fixtures.YAML_prior
      Fixtures.req_plain Fixtures.rel_prior
    = (set_req_values Fixtures.req_plain (RConfig Fixtures.rel_prior), None)) /\
   (~ (blank (Values Fixtures.req_plain) /\ ~ blank (RConfig Fixtures.rel_prior)) ->
    reuseValues string Fixtures.CoalesceValues_prior Fixtures.YAML_prior
      Fixtures.req_plain Fixtures.rel_prior = (Fixtures.req_plain, None))).
Proof.
  split; [reflexivity|]. split; [reflexivity|].
  apply (reuseValues_carry_forward string Fixtures.CoalesceValues_prior Fixtures.YAML_prior
           Fixtures.req_plain Fixtures.rel_prior); reflexivity.
Defined.

(** C1 (as amended): with [ReuseValues] set and [ResetValues] unset, the
    prior release's configuration is coalesced again and serialized, and the
    result replaces the default values of the request's chart
    ([req.Chart.Values]); the request's own values ([req.Values]) and other
    fields are kept. When coalescing or serializing fails the error is
    returned and the request is left unchanged. *)
Theorem reuseValues_reuse (V : Type) (CV : Chart -> option Config -> errorOr V)
  (YAML : V -> errorOr string) (req : UpdateReleaseRequest) (current : Release) :
  ResetValues req = false -> ReuseValues req = true ->
  (forall oldVals nv, CV (RChart current) (RConfig current) = Ok oldVals ->
     YAML oldVals = Ok nv ->
     reuseValues V CV YAML req current =
     (mkUpdateReleaseRequest (ReqName req)
        (mkChart (MetadataName (ReqChart req)) (Templates (ReqChart req))
           (Some (mkConfig nv)))
        (Values req) (ResetValues req) (ReuseValues req), None)) /\
  (forall e, CV (RChart current) (RConfig current) = Err e ->
     reuseValues V CV YAML req current =
     (req, Some ("failed to rebuild old values: " ++ e))) /\
  (forall oldVals e, CV (RChart current) (RConfig current) = Ok oldVals ->
     YAML oldVals = Err e -> reuseValues V CV YAML req current = (req, Some e)).
Proof.
  intros H1 H2; unfold reuseValues, set_req_chart, set_chart_values; rewrite H1, H2.
  split; [|split].
  - intros oldVals nv Hc Hy; rewrite Hc, Hy; reflexivity.
  - intros e Hc; rewrite Hc; reflexivity.
  - intros oldVals e Hc Hy; rewrite Hc, Hy; reflexivity.
Qed.

Lemma reuseValues_reuse_witness :
  ResetValues Fixtures.req_reuse = false /\ ReuseValues Fixtures.req_reuse = true /\
  (forall oldVals nv,
     Fixtures.CoalesceValues_prior (RChart Fixtures.rel_prior) (RConfig Fixtures.rel_prior)
       = Ok oldVals ->
     Fixtures.YAML_prior oldVals = Ok nv ->
     reuseValues string Fixtures.CoalesceValues_prior Fixtures.YAML_prior
       Fixtures.req_reuse Fixtures.rel_prior =
     (mkUpdateReleaseRequest (ReqName Fixtures.req_reuse)
        (mkChart (MetadataName (ReqChart Fixtures.req_reuse))
           (Templates (ReqChart Fixtures.req_reuse)) (Some (mkConfig nv)))
        (Values Fixtures.req_reuse) (ResetValues Fixtures.req_reuse)
        (ReuseValues Fixtures.req_reuse), None)).
Proof.
  split; [reflexivity|]. split; [reflexivity|].
  apply (reuseValues_reuse string Fixtures.CoalesceValues_prior Fixtures.YAML_prior
           Fixtures.req_reuse Fixtures.rel_prior); reflexivity.
Defined.

(** C1 (counterexample): with [--reuse-values] and values [name: new] of its
    own, the request's configuration after the policy is still [name: new],
    not the recomputed prior configuration [name: old]; the recomputed value
    went to the chart's default values. *)
Lemma reuseValues_request_values_kept :
  let '(req', err) :=
    reuseValues string Fixtures.CoalesceValues_prior Fixtures.YAML_prior
      Fixtures.req_reuse Fixtures.rel_prior in
  err = None /\ Values req' = Some (mkConfig "name: new") /\
  Values req' <> Some (mkConfig ("name: old" ++ NL)) /\
  ChartValues (ReqChart req') = Some (mkConfig ("name: old" ++ NL)).
Proof.
  vm_compute. split; [reflexivity|]. split; [reflexivity|].
  split; [discriminate|reflexivity].
Qed.

Import UniqName.

Lemma insert_desc_In (r y : Release) (l : list Release) :
  In y (insert_desc r l) <-> y = r \/ In y l.
Proof.
  induction l as [|x l IH]; simpl.
  - split; intros [H|H]; auto; contradiction.
  - destruct (Version x <=? Version r)%Z; simpl.
    + split; intros [H|H]; subst; auto.
    + rewrite IH; split; intros [H|H]; subst; tauto.
Qed.

Lemma Reverse_SortByRevision_In (h : list Release) (y : Release) :
  In y (Reverse_SortByRevision h) <-> In y h.
Proof.
  induction h as [|r h IH]; simpl; [tauto|].
  rewrite insert_desc_In, IH; split; intros [H|H]; auto.
Qed.

(** The head of the sorted history is a release of the history with the
    highest revision. *)
Lemma Reverse_SortByRevision_head (h : list Release) (x : Release) (t : list Release) :
  Reverse_SortByRevision h = x :: t ->
  In x h /\ forall y, In y h -> (Version y <= Version x)%Z.
Proof.
  revert x t; induction h as [|r h IH]; intros x t E; simpl in E; [discriminate|].
  destruct (Reverse_SortByRevision h) as [|x0 t0] eqn:E0; simpl in E.
  - injection E as <- _. split; [left; reflexivity|].
    intros y [<-|Hy]; [lia|].
    apply Reverse_SortByRevision_In in Hy; rewrite E0 in Hy; destruct Hy.
  - destruct (IH x0 t0 eq_refl) as [Hin Hmax].
    destruct (Version x0 <=? Version r)%Z eqn:Hc.
    + injection E as <- _. apply Z.leb_le in Hc. split; [left; reflexivity|].
      intros y [<-|Hy]; [lia|]. specialize (Hmax y Hy); lia.
    + injection E as <- _. apply Z.leb_gt in Hc. split; [right; exact Hin|].
      intros y [<-|Hy]; [lia|]. exact (Hmax y Hy).
Qed.

(** C5: for an explicit name, [uniqName] rejects a name longer than 53
    bytes; otherwise it grants the name when there is no history, and when
    there is one it looks at the release of highest revision: with [reuse]
    the name is granted if that release is DELETED or FAILED and refused
    otherwise; without [reuse] the name is refused whatever the status. *)
Theorem uniqName_explicit (History : string -> errorOr (list Release))
  (Get : string -> Z -> errorOr Release) (NameSep : nat -> string)
  (start : string) (reuse : bool) :
  start <> "" ->
  (53 < String.length start ->
   exists e, uniqName History Get NameSep start reuse = Fail "" e) /\
  (String.length start <= 53 ->
   ((History start = Ok [] \/ exists e, History start = Err e) ->
    uniqName History Get NameSep start reuse = Ret start) /\
   (forall h rel, History start = Ok h -> In rel h ->
    (forall r, In r h -> (Version r < Version rel)%Z \/ r = rel) ->
    (reuse = true -> StatusCode rel = Status_DELETED \/ StatusCode rel = Status_FAILED ->
     uniqName History Get NameSep start reuse = Ret start) /\
    (reuse = true -> StatusCode rel <> Status_DELETED -> StatusCode rel <> Status_FAILED ->
     exists e, uniqName History Get NameSep start reuse = Fail "" e) /\
    (reuse = false -> exists e, uniqName History Get NameSep start reuse = Fail "" e))).
Proof.
  intros Hne. unfold uniqName, releaseNameMaxLen.
  destruct (String.eqb_spec start "") as [E|_]; [contradiction|]. cbn [negb].
  split.
  - intros Hlt. apply Nat.ltb_lt in Hlt. rewrite Hlt. eexists; reflexivity.
  - intros Hle. assert (Hf : Nat.ltb 53 (String.length start) = false)
      by (apply Nat.ltb_ge; lia).
    rewrite Hf. split.
    + intros [H0|[e H0]]; rewrite H0; reflexivity.
    + intros h rel Hh Hin Hmax. rewrite Hh.
      destruct h as [|r0 h0]; [destruct Hin|].
      destruct (Reverse_SortByRevision (r0 :: h0)) as [|x t] eqn:E.
      * exfalso. apply Reverse_SortByRevision_In in Hin. rewrite E in Hin. destruct Hin.
      * destruct (Reverse_SortByRevision_head _ _ _ E) as [Hx Hm].
        assert (x = rel) as ->.
        { destruct (Hmax x Hx) as [Hlt|Heq]; [|exact Heq].
          specialize (Hm rel Hin); lia. }
        split; [|split].
        -- intros -> [Hs|Hs]; rewrite Hs; reflexivity.
        -- intros -> Hd Hfl.
           destruct (StatusCode rel); try contradiction; eexists; reflexivity.
        -- intros ->. eexists; reflexivity.
Qed.

Lemma uniqName_explicit_witness :
  "web" <> "" /\ String.length "web" <= 53 /\
  Fixtures.History_web "web" = Ok [Fixtures.web_v1; Fixtures.web_v2] /\
  In Fixtures.web_v2 [Fixtures.web_v1; Fixtures.web_v2] /\
  uniqName Fixtures.History_web Fixtures.Get_taken Fixtures.NameSep_fixed "web" true
  = Ret "web".
Proof.
  split; [discriminate|]. split; [simpl; lia|]. split; [reflexivity|].
  split; [right; left; reflexivity|].
  destruct (uniqName_explicit Fixtures.History_web Fixtures.Get_taken
              Fixtures.NameSep_fixed "web" true ltac:(discriminate)) as [_ H].
  destruct (H ltac:(simpl; lia)) as [_ H2].
  destruct (H2 [Fixtures.web_v1; Fixtures.web_v2] Fixtures.web_v2 eq_refl
              (or_intror (or_introl eq_refl))) as [H3 _].
  - intros r [<-|[<-|[]]]; [left; simpl; lia|right; reflexivity].
  - apply H3; [reflexivity|left; reflexivity].
Defined.

(** C4 (defect): without a requested name, when the first generated name
    (after truncation to 53 bytes) is already stored, [Get] returns a nil
    error and [err.Error()] dereferences it: [uniqName] panics instead of
    trying another name. *)
Theorem uniqName_generated_taken_panics (History : string -> errorOr (list Release))
  (Get : string -> Z -> errorOr Release) (NameSep : nat -> string) (reuse : bool)
  (rel : Release) :
  Get (if Nat.ltb 53 (String.length (NameSep 0))
       then substring 0 53 (NameSep 0) else NameSep 0) 1%Z = Ok rel ->
  uniqName History Get NameSep "" reuse =
  Panic "runtime error: invalid memory address or nil pointer dereference".
Proof.
  intros HG. unfold uniqName. cbn [String.eqb negb].
  unfold maxTries, try_generate, releaseNameMaxLen, GoStrings.slice_to.
  rewrite HG. reflexivity.
Qed.

Lemma uniqName_generated_taken_panics_witness :
  Fixtures.Get_taken
    (if Nat.ltb 53 (String.length (Fixtures.NameSep_fixed 0))
     then substring 0 53 (Fixtures.NameSep_fixed 0) else Fixtures.NameSep_fixed 0) 1%Z
  = Ok (mkRelease "happy-panda" 1 Status_DEPLOYED (mkChart "c" [] None) None) /\
  uniqName Fixtures.History_web Fixtures.Get_taken Fixtures.NameSep_fixed "" false =
  Panic "runtime error: invalid memory address or nil pointer dereference".
Proof.
  split; [reflexivity|].
  apply (uniqName_generated_taken_panics Fixtures.History_web Fixtures.Get_taken
           Fixtures.NameSep_fixed false
           (mkRelease "happy-panda" 1 Status_DEPLOYED (mkChart "c" [] None) None)).
  reflexivity.
Defined.

Import Classifier.

Lemma collect_events_none (types : list string) (k : bool) (evs : list Hook_Event) :
  Forall (fun t => lookup_event (GoText.ToLower (GoText.TrimSpace t)) events = None) types ->
  collect_events types k evs = (k, evs).
Proof.
  intros HF; revert evs; induction HF as [|t ts Ht _ IH]; intros acc; [reflexivity|].
  cbn [collect_events]; rewrite Ht; apply IH.
Qed.

Lemma version_check_passes (vs : VersionSet) (v : string) :
  v = "" \/ Has vs v = true -> negb (v =? "") && negb (Has vs v) = false.
Proof.
  intros [->|H]; [reflexivity|]. rewrite H. apply andb_false_r.
Qed.

Lemma version_check_fails (vs : VersionSet) (v : string) :
  v <> "" -> Has vs v = false -> negb (v =? "") && negb (Has vs v) = true.
Proof.
  intros H1 H2. rewrite H2. destruct (String.eqb_spec v "") as [E|_]; [contradiction|].
  reflexivity.
Qed.

Lemma hasAnyAnnotation_of_lookup (entry : SimpleHead) (k v : string) :
  lookup k (annotations_of entry) = Some v -> hasAnyAnnotation entry = true.
Proof.
  unfold annotations_of, hasAnyAnnotation.
  destruct (HMetadata entry) as [md|]; [|discriminate].
  destruct (Annotations md); [discriminate|reflexivity].
Qed.

(** One document whose hook annotation names no recognized event: it leaves
    the result as it is and raises no error. *)
Lemma sort_entries_unknown_hook_step (U : string -> errorOr SimpleHead) (fpath : string)
  (vs : VersionSet) (m : string) (ms : list string) (r : result) (entry : SimpleHead)
  (hookTypes : string) :
  U m = Ok entry -> HVersion entry = "" \/ Has vs (HVersion entry) = true ->
  lookup HookAnno (annotations_of entry) = Some hookTypes -> no_known_event hookTypes ->
  sort_entries U fpath vs (m :: ms) r = sort_entries U fpath vs ms r.
Proof.
  intros Hu Hv Hl Hn. simpl. rewrite Hu, (version_check_passes _ _ Hv).
  rewrite (hasAnyAnnotation_of_lookup _ _ _ Hl), Hl. simpl negb. cbv iota.
  rewrite (collect_events_none _ false [] Hn). reflexivity.
Qed.

(** One document without the hook annotation key: a generic manifest with
    the file's path and the document's text is appended. *)
Lemma sort_entries_generic_step (U : string -> errorOr SimpleHead) (fpath : string)
  (vs : VersionSet) (m : string) (ms : list string) (r : result) (entry : SimpleHead) :
  U m = Ok entry -> HVersion entry = "" \/ Has vs (HVersion entry) = true ->
  lookup HookAnno (annotations_of entry) = None ->
  sort_entries U fpath vs (m :: ms) r =
  sort_entries U fpath vs ms (add_generic r (mkManifest fpath m entry)).
Proof.
  intros Hu Hv Hl. simpl. rewrite Hu, (version_check_passes _ _ Hv).
  destruct (hasAnyAnnotation entry); simpl; [rewrite Hl|]; reflexivity.
Qed.

(** C2: a document that passes the header checks and whose hook annotation
    names no recognized event is dropped: classifying it adds neither a hook
    nor a generic manifest and raises no error. *)
Theorem sort_drops_unknown_hook (U : string -> errorOr SimpleHead) (fpath : string)
  (vs : VersionSet) (m : string) (ms : list string) (r : result) (entry : SimpleHead)
  (hookTypes : string) :
  U m = Ok entry -> HVersion entry = "" \/ Has vs (HVersion entry) = true ->
  lookup HookAnno (annotations_of entry) = Some hookTypes -> no_known_event hookTypes ->
  sort_entries U fpath vs (m :: ms) r = sort_entries U fpath vs ms r.
Proof. apply sort_entries_unknown_hook_step. Qed.

Lemma sort_drops_unknown_hook_witness :
  Fixtures.Unmarshal Fixtures.doc_bogus_hook =
    Ok (mkSimpleHead "v1" "ConfigMap"
          (Some (mkMetadata "cm" [("helm.sh/hook", "bogus-event")]))) /\
  sort_entries Fixtures.Unmarshal "templates/cm.yaml" ["v1"]
    [Fixtures.doc_bogus_hook; Fixtures.doc_plain] (mkResult [] []) =
  sort_entries Fixtures.Unmarshal "templates/cm.yaml" ["v1"]
    [Fixtures.doc_plain] (mkResult [] []).
Proof.
  split; [reflexivity|].
  apply (sort_drops_unknown_hook Fixtures.Unmarshal "templates/cm.yaml" ["v1"]
           Fixtures.doc_bogus_hook [Fixtures.doc_plain] (mkResult [] [])
           (mkSimpleHead "v1" "ConfigMap"
              (Some (mkMetadata "cm" [("helm.sh/hook", "bogus-event")])))
           "bogus-event").
  - reflexivity.
  - right; reflexivity.
  - reflexivity.
  - unfold no_known_event; vm_compute; repeat constructor.
Defined.

(** C3 (as amended): a document that passes the header checks and has no
    annotation, or no hook annotation key, becomes a generic manifest whose
    content is the document's text and whose name is the file's path; a
    document whose hook annotation names only unrecognized events becomes
    nothing. *)
Theorem sort_generic_verbatim (U : string -> errorOr SimpleHead) (fpath : string)
  (vs : VersionSet) (m : string) (ms : list string) (r : result) (entry : SimpleHead) :
  U m = Ok entry -> HVersion entry = "" \/ Has vs (HVersion entry) = true ->
  (lookup HookAnno (annotations_of entry) = None ->
   sort_entries U fpath vs (m :: ms) r =
   sort_entries U fpath vs ms (mkResult (hooks r) (generic r ++ [mkManifest fpath m entry]))) /\
  (forall hookTypes, lookup HookAnno (annotations_of entry) = Some hookTypes ->
   no_known_event hookTypes ->
   sort_entries U fpath vs (m :: ms) r = sort_entries U fpath vs ms r).
Proof.
  intros Hu Hv. split.
  - intros Hl. exact (sort_entries_generic_step U fpath vs m ms r entry Hu Hv Hl).
  - intros hookTypes Hl Hn.
    exact (sort_entries_unknown_hook_step U fpath vs m ms r entry hookTypes Hu Hv Hl Hn).
Qed.

Lemma sort_generic_verbatim_witness :
  Fixtures.Unmarshal Fixtures.doc_plain =
    Ok (mkSimpleHead "v1" "ConfigMap" (Some (mkMetadata "plain" []))) /\
  sort_entries Fixtures.Unmarshal "templates/cm.yaml" ["v1"] [Fixtures.doc_plain]
    (mkResult [] []) =
  sort_entries Fixtures.Unmarshal "templates/cm.yaml" ["v1"] []
    (mkResult [] [mkManifest "templates/cm.yaml" Fixtures.doc_plain
                    (mkSimpleHead "v1" "ConfigMap" (Some (mkMetadata "plain" [])))]).
Proof.
  split; [reflexivity|].
  apply (sort_generic_verbatim Fixtures.Unmarshal "templates/cm.yaml" ["v1"]
           Fixtures.doc_plain [] (mkResult [] [])
           (mkSimpleHead "v1" "ConfigMap" (Some (mkMetadata "plain" [])))).
  - reflexivity.
  - right; reflexivity.
  - reflexivity.
Defined.

(** C3 (counterexample): a ConfigMap annotated [helm.sh/hook: bogus-event]
    has no recognized hook annotation, yet classifying its file yields no
    generic manifest (and no hook). *)
Lemma sort_unknown_hook_not_generic :
  Fixtures.Unmarshal Fixtures.doc_bogus_hook =
    Ok (mkSimpleHead "v1" "ConfigMap"
          (Some (mkMetadata "cm" [("helm.sh/hook", "bogus-event")]))) /\
  sort Fixtures.Unmarshal
    (mkManifestFile [Fixtures.doc_bogus_hook] "templates/cm.yaml" ["v1"]) (mkResult [] [])
  = (mkResult [] [], None).
Proof. split; vm_compute; reflexivity. Qed.

(** A document that passes the header checks is classified and the loop
    goes on with the rest of the file. *)
Lemma sort_entries_ok_step (U : string -> errorOr SimpleHead) (fpath : string)
  (vs : VersionSet) (m : string) (ms : list string) (r : result) (entry : SimpleHead) :
  U m = Ok entry -> negb (HVersion entry =? "") && negb (Has vs (HVersion entry)) = false ->
  exists r', sort_entries U fpath vs (m :: ms) r = sort_entries U fpath vs ms r'.
Proof.
  intros Hu Hv. simpl. rewrite Hu, Hv.
  destruct (hasAnyAnnotation entry); simpl; [|eexists; reflexivity].
  destruct (lookup HookAnno (annotations_of entry)); [|eexists; reflexivity].
  destruct (collect_events (GoText.Split s ","%char) false []) as [[|] evs];
    simpl; eexists; reflexivity.
Qed.

(** An error of the loop comes from a rejected document of the file. *)
Lemma sort_entries_error_source (U : string -> errorOr SimpleHead) (fpath : string)
  (vs : VersionSet) (ms : list string) (r r' : result) (e : string) :
  sort_entries U fpath vs ms r = (r', Some e) ->
  exists d, In d ms /\ doc_error U vs d fpath e.
Proof.
  revert r; induction ms as [|m ms IH]; intros r H; [discriminate|].
  destruct (U m) as [entry|msg] eqn:Hu.
  - destruct (negb (HVersion entry =? "") && negb (Has vs (HVersion entry))) eqn:Hv.
    + simpl in H. rewrite Hu, Hv in H. injection H as _ <-.
      exists m; split; [left; reflexivity|]. right. exists entry.
      apply andb_true_iff in Hv; destruct Hv as [H1 H2].
      apply negb_true_iff in H1, H2. apply String.eqb_neq in H1.
      repeat split; assumption.
    + destruct (sort_entries_ok_step U fpath vs m ms r entry Hu Hv) as [r'' E].
      rewrite E in H. destruct (IH r'' H) as [d [Hd He]].
      exists d; split; [right; exact Hd | exact He].
  - simpl in H. rewrite Hu in H. injection H as _ <-.
    exists m; split; [left; reflexivity|]. left; exists msg; split; [exact Hu|reflexivity].
Qed.

(** A file with a rejected document makes the loop fail. *)
Lemma sort_entries_bad_fails (U : string -> errorOr SimpleHead) (fpath : string)
  (vs : VersionSet) (ms : list string) (r : result) (d : string) :
  In d ms -> bad_doc U vs d -> exists r' e, sort_entries U fpath vs ms r = (r', Some e).
Proof.
  revert r; induction ms as [|m ms IH]; intros r Hin Hbad; [destruct Hin|].
  destruct (U m) as [entry|msg] eqn:Hu.
  - destruct (negb (HVersion entry =? "") && negb (Has vs (HVersion entry))) eqn:Hv.
    + simpl. rewrite Hu, Hv. eexists; eexists; reflexivity.
    + destruct (sort_entries_ok_step U fpath vs m ms r entry Hu Hv) as [r'' E].
      rewrite E. destruct Hin as [<-|Hin]; [|exact (IH r'' Hin Hbad)].
      exfalso. destruct Hbad as [[msg Hm]|[h [Hh [H1 H2]]]]; [congruence|].
      rewrite Hu in Hh; injection Hh as <-.
      rewrite (version_check_fails vs _ H1 H2) in Hv; discriminate.
  - simpl. rewrite Hu. eexists; eexists; reflexivity.
Qed.

Lemma sort_files_rejects (U : string -> errorOr SimpleHead)
  (SplitManifests : string -> list string) (S : Type)
  (sortByKind : list manifest -> S -> list manifest)
  (files : list (string * string)) (vs : VersionSet) (so : S) (r : result)
  (p c d : string) :
  In (p, c) files -> prefix "_" (GoText.Base p) = false -> GoText.TrimSpace c <> "" ->
  In d (SplitManifests c) -> bad_doc U vs d ->
  exists e p' c' d',
    snd (sort_files U SplitManifests S sortByKind files vs so r) = Some e /\
    In (p', c') files /\ In d' (SplitManifests c') /\ doc_error U vs d' p' e.
Proof.
  intros Hin Hp Hc Hd Hbad. revert r.
  induction files as [|[p0 c0] files IH]; intros r; [destruct Hin|].
  simpl.
  destruct (prefix "_" (GoText.Base p0)) eqn:Hp0.
  - destruct Hin as [E|Hin]; [injection E as -> ->; congruence|].
    destruct (IH Hin r) as (e & p' & c' & d' & H1 & H2 & H3 & H4).
    exists e, p', c', d'; repeat split; auto; right; exact H2.
  - destruct (GoText.TrimSpace c0 =? "") eqn:Hc0.
    + destruct Hin as [E|Hin].
      * injection E as -> ->. apply String.eqb_eq in Hc0; contradiction.
      * destruct (IH Hin r) as (e & p' & c' & d' & H1 & H2 & H3 & H4).
        exists e, p', c', d'; repeat split; auto; right; exact H2.
    + unfold sort; simpl.
      destruct (sort_entries U p0 vs (SplitManifests c0) r) as [r' [e|]] eqn:Es.
      * destruct (sort_entries_error_source U p0 vs _ r r' e Es) as [d' [Hd' He]].
        exists e, p0, c0, d'; repeat split; auto; left; reflexivity.
      * destruct Hin as [E|Hin].
        -- injection E as -> ->.
           destruct (sort_entries_bad_fails U p vs (SplitManifests c) r d Hd Hbad)
             as (r'' & e & E). congruence.
        -- destruct (IH Hin r') as (e & p' & c' & d' & H1 & H2 & H3 & H4).
           exists e, p', c', d'; repeat split; auto; right; exact H2.
Qed.

(** C6 (as amended): when a file that is not a partial (its base name does
    not start with "_") and is not blank holds a document whose header does
    not parse or whose non-empty apiVersion is missing from the capability
    set, [sortManifests] returns an error, raised for such a document and
    naming its file (and the apiVersion in the second case). *)
Theorem sortManifests_rejects_bad_document (U : string -> errorOr SimpleHead)
  (SplitManifests : string -> list string) (S : Type)
  (sortByKind : list manifest -> S -> list manifest)
  (files : list (string * string)) (vs : VersionSet) (so : S) (p c d : string) :
  In (p, c) files -> prefix "_" (GoText.Base p) = false -> GoText.TrimSpace c <> "" ->
  In d (SplitManifests c) -> bad_doc U vs d ->
  exists e p' c' d',
    snd (sortManifests U SplitManifests S sortByKind files vs so) = Some e /\
    In (p', c') files /\ In d' (SplitManifests c') /\ doc_error U vs d' p' e.
Proof. intros; eapply sort_files_rejects; eassumption. Qed.

Lemma sortManifests_rejects_bad_document_witness :
  In ("templates/widget.yaml", Fixtures.doc_bad_version)
     [("templates/widget.yaml", Fixtures.doc_bad_version)] /\
  bad_doc Fixtures.Unmarshal ["v1"] Fixtures.doc_bad_version /\
  exists e p' c' d',
    snd (sortManifests Fixtures.Unmarshal Fixtures.SplitOne unit Fixtures.sortByKind_id
           [("templates/widget.yaml", Fixtures.doc_bad_version)] ["v1"] tt) = Some e /\
    In (p', c') [("templates/widget.yaml", Fixtures.doc_bad_version)] /\
    In d' (Fixtures.SplitOne c') /\ doc_error Fixtures.Unmarshal ["v1"] d' p' e.
Proof.
  assert (Hbad : bad_doc Fixtures.Unmarshal ["v1"] Fixtures.doc_bad_version).
  { right. eexists; split; [reflexivity|]. split; [discriminate|reflexivity]. }
  split; [left; reflexivity|]. split; [exact Hbad|].
  apply (sortManifests_rejects_bad_document Fixtures.Unmarshal Fixtures.SplitOne unit
           Fixtures.sortByKind_id [("templates/widget.yaml", Fixtures.doc_bad_version)]
           ["v1"] tt "templates/widget.yaml" Fixtures.doc_bad_version
           Fixtures.doc_bad_version).
  - left; reflexivity.
  - reflexivity.
  - vm_compute; discriminate.
  - left; reflexivity.
  - exact Hbad.
Defined.

(** C6 (counterexample): a file whose base name starts with "_" is skipped
    before its documents are parsed: a document declaring the unsupported
    apiVersion [bogus/v1] in [templates/_widget.yaml] raises no error. *)
Lemma sortManifests_skips_partial_file :
  bad_doc Fixtures.Unmarshal ["v1"] Fixtures.doc_bad_version /\
  sortManifests Fixtures.Unmarshal Fixtures.SplitOne unit Fixtures.sortByKind_id
    [("templates/_widget.yaml", Fixtures.doc_bad_version)] ["v1"] tt = ([], [], None).
Proof.
  split; [|vm_compute; reflexivity].
  right. eexists; split; [reflexivity|]. split; [discriminate|reflexivity].
Qed.

Import HookExec.

Lemma lookup_event_not_in (k : string) (m : list (string * Hook_Event)) :
  ~ In k (map fst m) -> lookup_event k m = None.
Proof.
  induction m as [|[k' v] m IH]; intros H; [reflexivity|]. simpl in *.
  destruct (String.eqb_spec k' k) as [E|_]; [exfalso; apply H; left; exact E|].
  apply IH; intros Hin; apply H; right; exact Hin.
Qed.

(** C9: for an event name that is none of the ten recognized ones, [execHook]
    fails with "unknown hook" at once: no call is made to the kube client
    and the hooks, with their last-run timestamps, are left as they were. *)
Theorem execHook_unknown_hook
  (Create WatchUntilReady : string -> string -> Z -> bool -> option string) (Now : Z)
  (hs : list Hook) (name namespace hook : string) (timeout : Z) :
  ~ In hook (map fst events) ->
  execHook Create WatchUntilReady Now hs name namespace hook timeout =
  (hs, [], Some ("unknown hook " ++ hook)).
Proof.
  intros H. unfold execHook. rewrite (lookup_event_not_in hook events H). reflexivity.
Qed.

Lemma execHook_unknown_hook_witness :
  ~ In "pre-instal" (map fst events) /\
  execHook Fixtures.kube_ok Fixtures.kube_ok 100 [Fixtures.job_hook] "web" "default"
    "pre-instal" 300 = ([Fixtures.job_hook], [], Some ("unknown hook " ++ "pre-instal")).
Proof.
  assert (H : ~ In "pre-instal" (map fst events)).
  { simpl. intros H. repeat (destruct H as [H|H]; [discriminate H|]). exact H. }
  split; [exact H|].
  apply (execHook_unknown_hook Fixtures.kube_ok Fixtures.kube_ok 100 [Fixtures.job_hook]
           "web" "default" "pre-instal" 300).
  exact H.
Defined.

Import Repo.

Lemma update_one_cases (l : list Entry) (t : Entry) :
  (exists pre x post, l = (pre ++ x :: post)%list /\ Name x = Name t /\
     Forall (fun y => Name y <> Name t) pre /\ update_one l t = ((pre ++ t :: post)%list, true))
  \/ (Forall (fun y => Name y <> Name t) l /\ update_one l t = (l, false)).
Proof.
  induction l as [|repo rest IH]; [right; split; [constructor|reflexivity]|].
  simpl. destruct (String.eqb_spec (Name repo) (Name t)) as [E|NE].
  - left. exists [], repo, rest. repeat split; [exact E|constructor].
  - destruct IH as [(pre & x & post & Hl & Hx & Hpre & Hu)|[Hall Hu]]; rewrite Hu.
    + left. exists (repo :: pre), x, post. subst rest.
      repeat split; [exact Hx|constructor; assumption].
    + right. split; [constructor; assumption|reflexivity].
Qed.

Lemma filter_other_names (l : list Entry) (n : string) :
  Forall (fun y => Name y <> n) l -> filter (fun y => negb (Name y =? n)) l = l.
Proof.
  induction 1 as [|y l Hy _ IH]; [reflexivity|]. simpl.
  apply String.eqb_neq in Hy. rewrite Hy; simpl; f_equal; exact IH.
Qed.

(** C10: [Update r [e]] writes [e] over the first entry named like [e], or
    appends [e] when there is none; afterwards [Has] finds [e]'s name, and the
    entries with other names are unchanged and keep their order. *)
Theorem Update_replaces_or_appends (r : RepoFile) (e : Entry) :
  ((exists pre x post, Repositories r = (pre ++ x :: post)%list /\ Name x = Name e /\
      Forall (fun y => Name y <> Name e) pre /\
      Repositories (Update r [e]) = (pre ++ e :: post)%list)
   \/ (Forall (fun y => Name y <> Name e) (Repositories r) /\
       Repositories (Update r [e]) = (Repositories r ++ [e])%list)) /\
  Has (Update r [e]) (Name e) = true /\
  filter (fun y => negb (Name y =? Name e)) (Repositories (Update r [e])) =
  filter (fun y => negb (Name y =? Name e)) (Repositories r).
Proof.
  unfold Update; simpl.
  destruct (update_one_cases (Repositories r) e)
    as [(pre & x & post & Hl & Hx & Hpre & Hu)|[Hall Hu]]; rewrite Hu; simpl.
  - split; [left; exists pre, x, post; repeat split; assumption|].
    split.
    + unfold Has; simpl. apply existsb_exists. exists e; split.
      * apply in_or_app; right; left; reflexivity.
      * apply String.eqb_refl.
    + rewrite Hl, !filter_app; simpl. rewrite String.eqb_refl, Hx, String.eqb_refl.
      reflexivity.
  - split; [right; split; [exact Hall|reflexivity]|].
    split.
    + unfold Has, Add; simpl. apply existsb_exists. exists e; split.
      * apply in_or_app; right; left; reflexivity.
      * apply String.eqb_refl.
    + unfold Add; simpl. rewrite filter_app; simpl. rewrite String.eqb_refl.
      apply app_nil_r.
Qed.

Lemma fold_add_legacy (m : list (string * string)) (r0 : RepoFile) :
  let r' := fold_left
              (fun r '(k, v) => Add r [mkEntry k (k ++ "-index.yaml") v "" "" ""]) m r0 in
  APIVersion r' = APIVersion r0 /\
  Repositories r' =
  (Repositories r0 ++ map (fun '(k, v) => mkEntry k (k ++ "-index.yaml") v "" "" "") m)%list.
Proof.
  revert r0; induction m as [|[k v] m IH]; intros r0; simpl.
  - split; [reflexivity|]. symmetry; apply app_nil_r.
  - destruct (IH (Add r0 [mkEntry k (k ++ "-index.yaml") v "" "" ""])) as [H1 H2].
    split; [exact H1|]. rewrite H2. unfold Add; simpl. rewrite <- app_assoc. reflexivity.
Qed.

(** C8 (as amended): when the file reads and decodes as a [RepoFile] with an
    empty [apiVersion], and its content also decodes as a name to URL mapping,
    loading returns [ErrRepoOutOfDate] with a migrated file of API version
    [v1] holding one entry per pair of the mapping (cache [<name>-index.yaml]);
    when the content does not decode as such a mapping, loading returns that
    decoding error and no file. A file with a non-empty [apiVersion] is
    returned as decoded, with no error. *)
Theorem LoadRepositoriesFile_outcomes (ReadFile : string -> errorOr string) (Now : Z)
  (U1 : string -> errorOr RepoFile) (U2 : string -> errorOr (list (string * string)))
  (p b : string) (r : RepoFile) :
  ReadFile p = Ok b -> U1 b = Ok r ->
  (APIVersion r = "" -> forall m, U2 b = Ok m ->
   exists r', LoadRepositoriesFile ReadFile Now U1 U2 p = (Some r', Some ErrRepoOutOfDate) /\
     APIVersion r' = APIVersionV1 /\
     Repositories r' = map (fun '(k, v) => mkEntry k (k ++ "-index.yaml") v "" "" "") m) /\
  (APIVersion r = "" -> forall e, U2 b = Err e ->
   LoadRepositoriesFile ReadFile Now U1 U2 p = (None, Some e)) /\
  (APIVersion r <> "" -> LoadRepositoriesFile ReadFile Now U1 U2 p = (Some r, None)).
Proof.
  intros Hr Hu. unfold LoadRepositoriesFile. rewrite Hr, Hu. split; [|split].
  - intros Hv m Hm. rewrite Hv, Hm. simpl.
    eexists; split; [reflexivity|].
    destruct (fold_add_legacy m (NewRepoFile Now)) as [H1 H2].
    split; [exact H1|exact H2].
  - intros Hv e He. rewrite Hv, He. reflexivity.
  - intros Hv. apply String.eqb_neq in Hv. rewrite Hv. reflexivity.
Qed.

Lemma LoadRepositoriesFile_outcomes_witness :
  Fixtures.ReadFile_legacy "repositories.yaml" = Ok Fixtures.legacy_file /\
  Fixtures.Unmarshal_RepoFile Fixtures.legacy_file = Ok (mkRepoFile "" 0 []) /\
  exists r', LoadRepositoriesFile Fixtures.ReadFile_legacy 0 Fixtures.Unmarshal_RepoFile
               Fixtures.Unmarshal_map "repositories.yaml" = (Some r', Some ErrRepoOutOfDate) /\
    APIVersion r' = APIVersionV1 /\
    Repositories r' =
    map (fun '(k, v) => mkEntry k (k ++ "-index.yaml") v "" "" "")
      [("stable", "https://kubernetes-charts.storage.googleapis.com")].
Proof.
  split; [reflexivity|]. split; [reflexivity|].
  destruct (LoadRepositoriesFile_outcomes Fixtures.ReadFile_legacy 0
              Fixtures.Unmarshal_RepoFile Fixtures.Unmarshal_map "repositories.yaml"
              Fixtures.legacy_file (mkRepoFile "" 0 []) eq_refl eq_refl) as [H _].
  apply H; reflexivity.
Defined.

(** C8 (counterexample): [repositories: []] decodes as a [RepoFile] with an
    empty [apiVersion], but not as a name to URL mapping: loading returns that
    decoding error and no file, not [ErrRepoOutOfDate] with a migrated one. *)
Lemma LoadRepositoriesFile_unversioned_not_migrated :
  Fixtures.Unmarshal_RepoFile Fixtures.no_version_file = Ok (mkRepoFile "" 0 []) /\
  LoadRepositoriesFile Fixtures.ReadFile_no_version 0 Fixtures.Unmarshal_RepoFile
    Fixtures.Unmarshal_map "repositories.yaml" =
  (None, Some "error unmarshaling JSON: json: cannot unmarshal array into Go value of type string").
Proof. split; vm_compute; reflexivity. Qed.

(** * Further properties of the sources *)

Import RepoOps.

Lemma Remove_loop (l : list Entry) (name : string) (cp : list Entry) (found : bool) :
  fold_left
    (fun '(cp, found) rf =>
       if Name rf =? name then (cp, true) else ((cp ++ [rf])%list, found))
    l (cp, found) =
  ((cp ++ filter (fun y => negb (Name y =? name)) l)%list,
   found || existsb (fun y => Name y =? name) l).
Proof.
  revert cp found; induction l as [|y l IH]; intros cp found; simpl.
  - rewrite app_nil_r, orb_false_r; reflexivity.
  - destruct (Name y =? name); simpl; rewrite IH.
    + rewrite orb_true_r; reflexivity.
    + rewrite <- app_assoc; reflexivity.
Qed.

(** [Remove r name] reports whether [name] was present, drops every entry
    with that name, keeps the other entries in their order, and leaves the
    API version and generation time alone. *)
Theorem Remove_spec (r : RepoFile) (name : string) :
  snd (Remove r name) = Has r name /\
  Repositories (fst (Remove r name)) =
    filter (fun y => negb (Name y =? name)) (Repositories r) /\
  Has (fst (Remove r name)) name = false /\
  APIVersion (fst (Remove r name)) = APIVersion r /\
  Generated (fst (Remove r name)) = Generated r.
Proof.
  unfold Remove. rewrite Remove_loop. simpl. split; [reflexivity|].
  split; [reflexivity|]. split; [|split; reflexivity].
  unfold Has; simpl. apply not_true_is_false. intros H.
  apply existsb_exists in H. destruct H as [y [Hy Hn]].
  apply filter_In in Hy. destruct Hy as [_ Hy]. rewrite Hn in Hy. discriminate.
Qed.

(** Adding an entry under a new name and removing that name gives back the
    original entries, and [Remove] reports that it found the name. *)
Theorem Remove_Add (r : RepoFile) (e : Entry) :
  Has r (Name e) = false ->
  Repositories (fst (Remove (Add r [e]) (Name e))) = Repositories r /\
  snd (Remove (Add r [e]) (Name e)) = true.
Proof.
  intros H. destruct (Remove_spec (Add r [e]) (Name e)) as [H1 [H2 _]].
  rewrite H1, H2. unfold Add, Has in *; simpl in *. split.
  - rewrite filter_app; simpl. rewrite String.eqb_refl; simpl. rewrite app_nil_r.
    apply filter_other_names. apply Forall_forall. intros y Hy E.
    assert (existsb (fun rf => Name rf =? Name e) (Repositories r) = true)
      by (apply existsb_exists; exists y; split; [exact Hy|apply String.eqb_eq; exact E]).
    congruence.
  - rewrite existsb_app; simpl. rewrite String.eqb_refl, orb_true_r. reflexivity.
Qed.

Lemma Remove_Add_witness :
  Has Fixtures2.repos_stable (Name Fixtures2.incubator) = false /\
  Repositories (fst (Remove (Add Fixtures2.repos_stable [Fixtures2.incubator])
                      (Name Fixtures2.incubator))) = Repositories Fixtures2.repos_stable /\
  snd (Remove (Add Fixtures2.repos_stable [Fixtures2.incubator]) (Name Fixtures2.incubator))
  = true.
Proof.
  split; [reflexivity|]. apply Remove_Add. reflexivity.
Defined.

Lemma update_one_keeps_names (l : list Entry) (t : Entry) (n : string) :
  existsb (fun rf => Name rf =? n) l = true ->
  existsb (fun rf => Name rf =? n) (fst (update_one l t)) = true.
Proof.
  induction l as [|y l IH]; simpl; [discriminate|].
  destruct (String.eqb_spec (Name y) (Name t)) as [E|NE]; simpl.
  - destruct (Name y =? n) eqn:Hy; simpl.
    + apply String.eqb_eq in Hy. rewrite <- E, Hy, String.eqb_refl. reflexivity.
    + intros H. rewrite H. apply orb_true_r.
  - destruct (update_one l t) as [l' f]; simpl in *.
    destruct (Name y =? n); simpl; [reflexivity|exact IH].
Qed.

Lemma Update_step_has (r : RepoFile) (t : Entry) (n : string) :
  (Has r n = true \/ n = Name t) -> Has (Update r [t]) n = true.
Proof.
  unfold Update, Has; simpl.
  destruct (update_one_cases (Repositories r) t)
    as [(pre & x & post & Hl & Hx & Hpre & Hu)|[Hall Hu]]; rewrite Hu; simpl.
  - intros [H| ->].
    + replace (pre ++ t :: post)%list with (fst (update_one (Repositories r) t))
        by (rewrite Hu; reflexivity).
      apply update_one_keeps_names; exact H.
    + apply existsb_exists. exists t; split; [apply in_or_app; right; left; reflexivity|].
      apply String.eqb_refl.
  - unfold Add; simpl. rewrite existsb_app. intros [H| ->]; [rewrite H; reflexivity|].
    simpl. rewrite String.eqb_refl, orb_true_r. reflexivity.
Qed.

(** [Update r re] keeps every name [r] already had and afterwards has the
    name of every entry of [re]; it leaves the API version alone. *)
Theorem Update_has_names (r : RepoFile) (re : list Entry) (n : string) :
  (Has r n = true \/ In n (map Name re)) ->
  Has (Update r re) n = true /\ APIVersion (Update r re) = APIVersion r.
Proof.
  revert r; induction re as [|t re IH]; intros r H.
  - destruct H as [H|[]]; split; [exact H|reflexivity].
  - change (Update r (t :: re)) with (Update (Update r [t]) re).
    assert (HA : APIVersion (Update r [t]) = APIVersion r).
    { unfold Update; simpl. destruct (update_one (Repositories r) t) as [l [|]];
        reflexivity. }
    destruct H as [H|[H|H]].
    + destruct (IH (Update r [t]) (or_introl (Update_step_has r t n (or_introl H))))
        as [H1 H2]. split; [exact H1|congruence].
    + destruct (IH (Update r [t]) (or_introl (Update_step_has r t n (or_intror (eq_sym H)))))
        as [H1 H2]. split; [exact H1|congruence].
    + destruct (IH (Update r [t]) (or_intror H)) as [H1 H2]. split; [exact H1|congruence].
Qed.

Lemma update_one_at_first (pre post : list Entry) (t : Entry) :
  Forall (fun y => Name y <> Name t) pre ->
  update_one (pre ++ t :: post)%list t = ((pre ++ t :: post)%list, true).
Proof.
  induction 1 as [|y pre Hy _ IH]; simpl.
  - rewrite String.eqb_refl; reflexivity.
  - apply String.eqb_neq in Hy. rewrite Hy, IH. reflexivity.
Qed.

(** Updating twice with the same entry is the same as updating once. *)
Theorem Update_idempotent (r : RepoFile) (e : Entry) :
  Update (Update r [e]) [e] = Update r [e].
Proof.
  unfold Update; simpl.
  destruct (update_one_cases (Repositories r) e)
    as [(pre & x & post & Hl & Hx & Hpre & Hu)|[Hall Hu]]; rewrite Hu; simpl.
  - rewrite (update_one_at_first pre post e Hpre). reflexivity.
  - unfold Add; simpl.
    rewrite <- (app_nil_r (Repositories r ++ [e])%list), <- app_assoc; simpl.
    rewrite (update_one_at_first (Repositories r) [] e Hall). reflexivity.
Qed.

Lemma Update_has_names_witness :
  (Has Fixtures2.repos_stable "incubator" = true \/
   In "incubator" (map Name [Fixtures2.incubator])) /\
  Has (Update Fixtures2.repos_stable [Fixtures2.incubator]) "incubator" = true /\
  APIVersion (Update Fixtures2.repos_stable [Fixtures2.incubator]) =
    APIVersion Fixtures2.repos_stable.
Proof.
  assert (H : Has Fixtures2.repos_stable "incubator" = true \/
              In "incubator" (map Name [Fixtures2.incubator]))
    by (right; simpl; left; reflexivity).
  split; [exact H|]. apply Update_has_names; exact H.
Defined.

(** ** Release-name validation *)
Import Regex ReleaseName.

Lemma in_re_void_inv (w : list ascii) : in_re Void w -> False.
Proof. inversion 1. Qed.

Lemma in_re_eps_inv (w : list ascii) : in_re Eps w -> w = [].
Proof. inversion 1; reflexivity. Qed.

Lemma in_re_class_inv (f : ascii -> bool) (w : list ascii) :
  in_re (Class f) w -> exists c, w = [c] /\ f c = true.
Proof. inversion 1; subst; eauto. Qed.

Lemma in_re_cat_inv (a b : re) (w : list ascii) :
  in_re (Cat a b) w -> exists w1 w2, w = (w1 ++ w2)%list /\ in_re a w1 /\ in_re b w2.
Proof. inversion 1; subst; eauto 6. Qed.

Lemma in_re_alt_inv (a b : re) (w : list ascii) :
  in_re (Alt a b) w -> in_re a w \/ in_re b w.
Proof. inversion 1; subst; auto. Qed.

Lemma nullable_correct (r : re) : nullable r = true <-> in_re r [].
Proof.
  induction r; simpl.
  - split; [discriminate|intro H; destruct (in_re_void_inv _ H)].
  - split; [intros _; constructor|reflexivity].
  - split; [discriminate|].
    intro H; destruct (in_re_class_inv _ _ H) as (c & Hc & _); discriminate.
  - rewrite andb_true_iff, IHr1, IHr2. split.
    + intros [H1 H2]. exact (in_cat _ _ [] [] H1 H2).
    + intro H; destruct (in_re_cat_inv _ _ _ H) as (w1 & w2 & E & H1 & H2).
      symmetry in E. destruct (app_eq_nil _ _ E) as [-> ->]; split; assumption.
  - rewrite orb_true_iff, IHr1, IHr2. split.
    + intros [H|H]; [apply in_alt_l|apply in_alt_r]; exact H.
    + apply in_re_alt_inv.
  - split; [intros _; constructor|reflexivity].
Qed.

Lemma deriv_correct (r : re) : forall c w, in_re (deriv c r) w <-> in_re r (c :: w).
Proof.
  induction r; intros c w; simpl.
  - split; intro H; destruct (in_re_void_inv _ H).
  - split; intro H; [destruct (in_re_void_inv _ H)|apply in_re_eps_inv in H; discriminate].
  - destruct (f c) eqn:E; split; intro H.
    + apply in_re_eps_inv in H; subst. constructor; exact E.
    + destruct (in_re_class_inv _ _ H) as (d & Hd & _). injection Hd as _ ->. constructor.
    + destruct (in_re_void_inv _ H).
    + destruct (in_re_class_inv _ _ H) as (d & Hd & Hf). injection Hd as -> _. congruence.
  - split; intro H.
    + destruct (nullable r1) eqn:N.
      * destruct (in_re_alt_inv _ _ _ H) as [H'|H'].
        -- destruct (in_re_cat_inv _ _ _ H') as (w1 & w2 & -> & H1 & H2).
           exact (in_cat _ _ (c :: w1) w2 (proj1 (IHr1 c w1) H1) H2).
        -- apply nullable_correct in N.
           exact (in_cat _ _ [] (c :: w) N (proj1 (IHr2 c w) H')).
      * destruct (in_re_cat_inv _ _ _ H) as (w1 & w2 & -> & H1 & H2).
        exact (in_cat _ _ (c :: w1) w2 (proj1 (IHr1 c w1) H1) H2).
    + destruct (in_re_cat_inv _ _ _ H) as (w1 & w2 & E & H1 & H2).
      destruct w1 as [|a w1]; simpl in E.
      * subst. assert (N : nullable r1 = true) by (apply nullable_correct; exact H1).
        rewrite N. apply in_alt_r. apply IHr2. exact H2.
      * injection E as <- ->.
        assert (D : in_re (Cat (deriv c r1) r2) (w1 ++ w2))
          by (apply in_cat; [apply IHr1|]; assumption).
        destruct (nullable r1); [apply in_alt_l|]; exact D.
  - split; intro H; destruct (in_re_alt_inv _ _ _ H) as [H'|H'].
    + apply in_alt_l, IHr1; assumption.
    + apply in_alt_r, IHr2; assumption.
    + apply in_alt_l, IHr1; assumption.
    + apply in_alt_r, IHr2; assumption.
  - split; intro H.
    + destruct (in_re_cat_inv _ _ _ H) as (w1 & w2 & -> & H1 & H2).
      exact (in_star_cons _ (c :: w1) w2 (proj1 (IHr c w1) H1) H2).
    + remember (Star r) as s eqn:Hs. remember (c :: w) as w' eqn:Hw.
      revert c w Hw. induction H; intros c0 w0 Hw; try discriminate.
      injection Hs as ->. destruct w1 as [|a w1]; simpl in Hw.
      * apply IHin_re2; [reflexivity|exact Hw].
      * injection Hw as E1 E2; subst. apply in_cat; [apply IHr|]; assumption.
Qed.

Lemma matches_correct (w : list ascii) : forall r, matches r w = true <-> in_re r w.
Proof.
  induction w as [|c w IH]; intro r; simpl.
  - apply nullable_correct.
  - rewrite IH. apply deriv_correct.
Qed.

Lemma alnum_name_char (c : ascii) : alnum c = true -> name_char c = true.
Proof.
  intro H. unfold name_char. rewrite H, orb_true_r. reflexivity.
Qed.

Lemma star_class_Forall (f : ascii -> bool) (w : list ascii) :
  in_re (Star (Class f)) w <-> Forall (fun x => f x = true) w.
Proof.
  split.
  - intro H. remember (Star (Class f)) as s eqn:Hs.
    induction H; try discriminate; [constructor|].
    injection Hs as ->. destruct (in_re_class_inv _ _ H) as (c & -> & Hc). simpl.
    constructor; [assumption|apply IHin_re2; reflexivity].
  - induction 1 as [|x l Hx _ IH]; [constructor|].
    exact (in_star_cons _ [x] l (in_class _ _ Hx) IH).
Qed.

Lemma last_default (l : list ascii) (x y : ascii) : l <> [] -> last l x = last l y.
Proof.
  induction l as [|a l IH]; [congruence|intros _].
  destruct l as [|b l]; [reflexivity|]. simpl. simpl in IH. apply IH. discriminate.
Qed.

Lemma last_app_ne (u v : list ascii) (x : ascii) : v <> [] -> last (u ++ v) x = last v x.
Proof.
  intro Hv. induction u as [|a u IH]; [reflexivity|]. simpl.
  destruct (u ++ v)%list eqn:E.
  - apply app_eq_nil in E. destruct E; congruence.
  - exact IH.
Qed.

Lemma name_group_good (w : list ascii) : in_re name_group w -> good_name w.
Proof.
  intro H. destruct (in_re_cat_inv _ _ _ H) as (w1 & w2 & -> & H1 & H2).
  destruct (in_re_class_inv _ _ H2) as (d & -> & Hd).
  destruct (in_re_alt_inv _ _ _ H1) as [H3|H3].
  - apply in_re_eps_inv in H3; subst. simpl. exists d, []. repeat split; try assumption.
    constructor; [apply alnum_name_char; assumption|constructor].
  - destruct (in_re_cat_inv _ _ _ H3) as (u1 & u2 & -> & H4 & H5).
    destruct (in_re_class_inv _ _ H4) as (c & -> & Hc).
    apply star_class_Forall in H5. simpl.
    exists c, (u2 ++ [d])%list. split; [reflexivity|]. split; [assumption|]. split.
    + rewrite app_comm_cons, last_last. assumption.
    + constructor; [apply alnum_name_char; assumption|].
      apply Forall_app. split; [assumption|].
      constructor; [apply alnum_name_char; assumption|constructor].
Qed.

Lemma good_name_app (u v : list ascii) :
  good_name u -> good_name v -> good_name (u ++ v).
Proof.
  intros (c & u' & -> & Hc & _ & Hu) (d & v' & -> & Hd & Hl & Hv).
  exists c, (u' ++ d :: v')%list. split; [reflexivity|]. split; [assumption|]. split.
  - rewrite last_app_ne by discriminate.
    rewrite (last_default _ c d) by discriminate. assumption.
  - apply Forall_app. split; assumption.
Qed.

Lemma star_name_group (w : list ascii) :
  in_re (Star name_group) w -> w = [] \/ good_name w.
Proof.
  intro H. remember (Star name_group) as s eqn:Hs.
  induction H; try discriminate; [left; reflexivity|].
  injection Hs as ->. right. apply name_group_good in H.
  destruct (IHin_re2 eq_refl) as [->|H2].
  - rewrite app_nil_r. exact H.
  - apply good_name_app; assumption.
Qed.

Lemma good_name_group (w : list ascii) : good_name w -> in_re name_group w.
Proof.
  intros (c & w' & -> & Hc & Hl & Hf).
  destruct w' as [|a w''] eqn:E.
  - exact (in_cat _ _ [] [c] (in_alt_l _ _ _ in_eps) (in_class _ _ Hc)).
  - assert (Hne : w' <> []) by (rewrite E; discriminate).
    rewrite <- E in *.
    destruct (exists_last Hne) as (m & d & Hm). rewrite Hm in Hl, Hf |- *.
    rewrite app_comm_cons, last_last in Hl. rewrite app_comm_cons.
    apply in_cat; [|constructor; exact Hl].
    apply in_alt_r.
    apply Forall_cons_iff in Hf. destruct Hf as [_ Hf].
    apply Forall_app in Hf. destruct Hf as [Hf _].
    exact (in_cat _ _ [c] m (in_class _ _ Hc) (proj2 (star_class_Forall _ _) Hf)).
Qed.

Lemma ValidName_language (w : list ascii) : in_re ValidName w <-> good_name w.
Proof.
  split.
  - intro H. destruct (in_re_cat_inv _ _ _ H) as (w1 & w2 & -> & H1 & H2).
    apply name_group_good in H1.
    destruct (star_name_group _ H2) as [->|H3].
    + rewrite app_nil_r. exact H1.
    + apply good_name_app; assumption.
  - intro H. rewrite <- (app_nil_r w).
    exact (in_cat _ _ w [] (good_name_group _ H) (in_star_nil _)).
Qed.

(** [validateReleaseName] accepts exactly the names of at most 53 bytes that
    are non-empty, made of [[-A-Za-z0-9_.]], and start and end with an ASCII
    letter or digit; it reports a missing name exactly for the empty string. *)
Theorem validateReleaseName_spec (n : string) :
  (validateReleaseName n = None <->
     String.length n <= 53 /\ good_name (list_ascii_of_string n)) /\
  (validateReleaseName n = Some errMissingRelease <-> n = "").
Proof.
  unfold validateReleaseName, MatchString, UniqName.releaseNameMaxLen.
  destruct (String.eqb_spec n "") as [->|Hn].
  - split; split; try discriminate; try reflexivity.
    intros [_ (c & w' & Hw & _)]. discriminate.
  - assert (M : matches ValidName (list_ascii_of_string n) = true <->
                 good_name (list_ascii_of_string n))
      by (rewrite matches_correct; apply ValidName_language).
    split.
    + destruct (matches ValidName (list_ascii_of_string n)) eqn:Em;
        destruct (Nat.ltb_spec 53 (String.length n)) as [L|L]; simpl; split; intro H.
      * discriminate.
      * destruct H; lia.
      * split; [lia|apply M; reflexivity].
      * reflexivity.
      * discriminate.
      * destruct H as [_ H]. apply M in H. discriminate.
      * discriminate.
      * destruct H as [_ H]. apply M in H. discriminate.
    + split; [|intro; contradiction].
      destruct (matches ValidName (list_ascii_of_string n));
        destruct (Nat.ltb 53 (String.length n)); discriminate.
Qed.

(** ** Release-name allocation *)
Import GoStrings UniqName UniqNameOps.

Lemma substring0_length (n : nat) (s : string) : String.length (substring 0 n s) <= n.
Proof.
  revert n; induction s as [|a s IH]; intro n; destruct n; simpl; try lia.
  specialize (IH n). lia.
Qed.

Lemma truncated_length (s : string) : String.length (truncated s) <= 53.
Proof.
  unfold truncated, releaseNameMaxLen, GoStrings.slice_to.
  destruct (Nat.ltb_spec 53 (String.length s)); [apply substring0_length|lia].
Qed.

Section Generation.
Variable History : string -> errorOr (list Release).
Variable Get : string -> Z -> errorOr Release.
Variable NameSep : nat -> string.

Lemma try_generate_S (i fuel : nat) :
  try_generate Get NameSep i (S fuel) =
  match Get (truncated (NameSep i)) 1%Z with
  | Ok _ => Panic "runtime error: invalid memory address or nil pointer dereference"
  | Err e =>
      if Contains e "not found" then Ret (truncated (NameSep i))
      else try_generate Get NameSep (S i) fuel
  end.
Proof. reflexivity. Qed.

Lemma try_generate_Ret (fuel : nat) : forall i name,
  try_generate Get NameSep i fuel = Ret name ->
  exists k e, i <= k < i + fuel /\ name = truncated (NameSep k) /\
    Get name 1%Z = Err e /\ Contains e "not found" = true.
Proof.
  induction fuel as [|fuel IH]; intros i name H; [discriminate|].
  rewrite try_generate_S in H.
  destruct (Get (truncated (NameSep i)) 1%Z) as [r|e] eqn:E; [discriminate|].
  destruct (Contains e "not found") eqn:C.
  - injection H as <-. exists i, e. repeat split; try lia; assumption.
  - destruct (IH (S i) name H) as (k & e' & Hk & Hn & Hg & Hc).
    exists k, e'. repeat split; try lia; assumption.
Qed.

Lemma try_generate_Fail (fuel : nat) : forall i n e,
  try_generate Get NameSep i fuel = Fail n e ->
  n = "ERROR" /\ e = "no available release name found" /\
  forall k, i <= k < i + fuel ->
    exists err, Get (truncated (NameSep k)) 1%Z = Err err /\
                Contains err "not found" = false.
Proof.
  induction fuel as [|fuel IH]; intros i n e H.
  - injection H as <- <-. repeat split; intros; lia.
  - rewrite try_generate_S in H.
    destruct (Get (truncated (NameSep i)) 1%Z) as [r|e'] eqn:E; [discriminate|].
    destruct (Contains e' "not found") eqn:C; [discriminate|].
    destruct (IH (S i) n e H) as (Hn & He & Hk).
    repeat split; try assumption.
    intros k Hr. destruct (Nat.eq_dec k i) as [->|Hne].
    + exists e'. split; assumption.
    + apply Hk. lia.
Qed.

Lemma uniqName_supplied_Ret (start : string) (reuse : bool) (name : string) :
  start <> "" -> uniqName History Get NameSep start reuse = Ret name ->
  String.length start <= 53 /\ name = start.
Proof.
  intros Hs H. unfold uniqName in H.
  apply String.eqb_neq in Hs. rewrite Hs in H. simpl in H.
  unfold releaseNameMaxLen in H.
  destruct (Nat.ltb_spec 53 (String.length start)); [discriminate|].
  split; [assumption|].
  destruct (History start) as [h|e]; [|congruence].
  destruct h as [|r h]; [congruence|].
  destruct (Reverse_SortByRevision (r :: h)) as [|rel rs]; [congruence|].
  destruct (reuse && _); [congruence|].
  destruct reuse; discriminate.
Qed.

Lemma uniqName_supplied_Fail (start : string) (reuse : bool) (n e : string) :
  start <> "" -> uniqName History Get NameSep start reuse = Fail n e -> n = "".
Proof.
  intros Hs H. unfold uniqName in H.
  apply String.eqb_neq in Hs. rewrite Hs in H. simpl in H.
  destruct (Nat.ltb releaseNameMaxLen (String.length start)); [congruence|].
  destruct (History start) as [h|e']; [|discriminate].
  destruct h as [|r h]; [discriminate|].
  destruct (Reverse_SortByRevision (r :: h)) as [|rel rs]; [discriminate|].
  destruct (reuse && _); [discriminate|].
  destruct reuse; congruence.
Qed.

End Generation.

(** A name [uniqName] returns is at most [releaseNameMaxLen] (53) bytes long.
    A supplied name comes back unchanged. Without a supplied name, the result
    is the truncated [NameSep] name of one of the five attempts, and the
    storage lookup of that name failed with an error containing "not found". *)
Theorem uniqName_Ret_name (History : string -> errorOr (list Release))
    (Get : string -> Z -> errorOr Release) (NameSep : nat -> string)
    (start : string) (reuse : bool) (name : string)
    (H : uniqName History Get NameSep start reuse = Ret name) :
  String.length name <= 53 /\
  (start <> "" -> name = start) /\
  (start = "" -> exists k e, k < maxTries /\ name = truncated (NameSep k) /\
                   Get name 1%Z = Err e /\ Contains e "not found" = true).
Proof.
  destruct (String.eqb_spec start "") as [->|Hs].
  - destruct (try_generate_Ret Get NameSep maxTries 0 name H)
      as (k & e & Hk & Hn & Hg & Hc).
    split; [rewrite Hn; apply truncated_length|].
    split; [congruence|]. intros _. exists k, e. repeat split; try lia; assumption.
  - destruct (uniqName_supplied_Ret History Get NameSep start reuse name Hs H) as [Hl ->].
    split; [assumption|]. split; [intros _; reflexivity|congruence].
Qed.

Lemma uniqName_Ret_name_witness :
  uniqName Fixtures.History_web Fixtures2.Get_free Fixtures.NameSep_fixed "" false
    = Ret "happy-panda" /\
  String.length "happy-panda" <= 53 /\
  ("" <> "" -> "happy-panda" = "") /\
  ("" = "" -> exists k e, k < maxTries /\
     "happy-panda" = truncated (Fixtures.NameSep_fixed k) /\
     Fixtures2.Get_free "happy-panda" 1%Z = Err e /\ Contains e "not found" = true).
Proof.
  assert (H : uniqName Fixtures.History_web Fixtures2.Get_free Fixtures.NameSep_fixed
                "" false = Ret "happy-panda") by (vm_compute; reflexivity).
  split; [exact H|].
  exact (uniqName_Ret_name Fixtures.History_web Fixtures2.Get_free
           Fixtures.NameSep_fixed "" false "happy-panda" H).
Defined.

(** [uniqName] fails with the empty name when a name was supplied. Without a
    supplied name it fails only with the name "ERROR" and the error
    "no available release name found", after each of the five attempts looked
    its name up and got an error not containing "not found". *)
Theorem uniqName_Fail_cases (History : string -> errorOr (list Release))
    (Get : string -> Z -> errorOr Release) (NameSep : nat -> string)
    (start : string) (reuse : bool) (n e : string)
    (H : uniqName History Get NameSep start reuse = Fail n e) :
  (start <> "" /\ n = "") \/
  (start = "" /\ n = "ERROR" /\ e = "no available release name found" /\
   forall k, k < maxTries ->
     exists err, Get (truncated (NameSep k)) 1%Z = Err err /\
                 Contains err "not found" = false).
Proof.
  destruct (String.eqb_spec start "") as [->|Hs].
  - right. destruct (try_generate_Fail Get NameSep maxTries 0 n e H) as (Hn & He & Hk).
    repeat split; try assumption. intros k Hlt. apply Hk. lia.
  - left. split; [assumption|]. exact (uniqName_supplied_Fail History Get NameSep start reuse n e Hs H).
Qed.

Lemma uniqName_Fail_cases_witness :
  uniqName Fixtures.History_web Fixtures2.Get_forbidden Fixtures.NameSep_fixed "" true
    = Fail "ERROR" "no available release name found" /\
  (("" <> "" /\ "ERROR" = "") \/
   ("" = "" /\ "ERROR" = "ERROR" /\
    "no available release name found" = "no available release name found" /\
    forall k, k < maxTries ->
      exists err, Fixtures2.Get_forbidden (truncated (Fixtures.NameSep_fixed k)) 1%Z
                    = Err err /\ Contains err "not found" = false)).
Proof.
  assert (H : uniqName Fixtures.History_web Fixtures2.Get_forbidden Fixtures.NameSep_fixed
                "" true = Fail "ERROR" "no available release name found")
    by (vm_compute; reflexivity).
  split; [exact H|].
  exact (uniqName_Fail_cases Fixtures.History_web Fixtures2.Get_forbidden
           Fixtures.NameSep_fixed "" true "ERROR" "no available release name found" H).
Defined.

(** ** Hook execution *)
Import Classifier HookExec HookExecOps.








Section Running.
Variable Create : string -> string -> Z -> bool -> option string.
Variable WatchUntilReady : string -> string -> Z -> bool -> option string.
Variable Now : Z.
Variable namespace : string.
Variable timeout : Z.




End Running.




(** ** Hook weights and the hooks found by [sortManifests] *)
Import SortOps.

Lemma int32_of_range (z : Z) : (- 2 ^ 31 <= GoText.int32_of z <= 2 ^ 31 - 1)%Z.
Proof.
  unfold GoText.int32_of. pose proof (Z.mod_pos_bound (z + 2 ^ 31) (2 ^ 32)). lia.
Qed.

Lemma int32_of_small (z : Z) : (- 2 ^ 31 <= z < 2 ^ 31)%Z -> GoText.int32_of z = z.
Proof.
  intro H. unfold GoText.int32_of. rewrite Z.mod_small by lia. lia.
Qed.

(** [calculateHookWeight] is always in the [int32] range; it is 0 when the
    entry has no [helm.sh/hook-weight] annotation, and it is the annotated
    number when that parses as an integer within the [int32] range. *)
Theorem calculateHookWeight_spec (entry : SimpleHead) :
  (- 2 ^ 31 <= calculateHookWeight entry <= 2 ^ 31 - 1)%Z /\
  (lookup HookWeightAnno (annotations_of entry) = None -> calculateHookWeight entry = 0%Z) /\
  (forall s v, lookup HookWeightAnno (annotations_of entry) = Some s ->
     GoText.Atoi s = Ok v -> (- 2 ^ 31 <= v < 2 ^ 31)%Z -> calculateHookWeight entry = v).
Proof.
  unfold calculateHookWeight. split; [|split].
  - destruct (GoText.Atoi _); [apply int32_of_range|lia].
  - intros ->. reflexivity.
  - intros s v -> Ha Hr. rewrite Ha. apply int32_of_small. exact Hr.
Qed.

Lemma collect_events_grow (ts : list string) : forall b evs b' evs',
  collect_events ts b evs = (b', evs') ->
  exists more, evs' = (evs ++ more)%list /\ (b' = true -> b = true \/ more <> []).
Proof.
  induction ts as [|t ts IH]; intros b evs b' evs' H; cbn [collect_events] in H.
  - injection H as <- <-. exists []. split; [rewrite app_nil_r; reflexivity|left; assumption].
  - destruct (lookup_event (GoText.ToLower (GoText.TrimSpace t)) events) as [e|].
    + destruct (IH _ _ _ _ H) as (more & -> & _).
      exists (e :: more). split; [rewrite <- app_assoc; reflexivity|].
      intros _. right. discriminate.
    + exact (IH _ _ _ _ H).
Qed.

Section SortedHooks.
Variable Unmarshal : string -> errorOr SimpleHead.
Variable SplitManifests : string -> list string.
Variable SortOrder : Type.
Variable sortByKind : list manifest -> SortOrder -> list manifest.

Lemma sort_entries_hooks (fpath : string) (vs : VersionSet) (ms : list string) :
  forall r r' e, sort_entries Unmarshal fpath vs ms r = (r', e) ->
  exists new, hooks r' = (hooks r ++ new)%list /\
    Forall (fun h => hook_ok h /\ HPath h = fpath /\ In (HManifest h) ms) new.
Proof.
  induction ms as [|m ms IH]; intros r r' e H; cbn [sort_entries] in H.
  - injection H as <- _. exists []. split; [rewrite app_nil_r; reflexivity|constructor].
  - assert (W : forall r0, sort_entries Unmarshal fpath vs ms r0 = (r', e) ->
                hooks r0 = hooks r ->
                exists new, hooks r' = (hooks r ++ new)%list /\
                  Forall (fun h => hook_ok h /\ HPath h = fpath /\ In (HManifest h) (m :: ms)) new).
    { intros r0 H0 Hr0. destruct (IH r0 r' e H0) as (new & Hn & Hf).
      exists new. split; [rewrite Hn, Hr0; reflexivity|].
      eapply Forall_impl; [|exact Hf]. simpl. intros h (? & ? & ?). auto. }
    destruct (Unmarshal m) as [entry|err].
    2:{ injection H as <- _. exists []. split; [rewrite app_nil_r; reflexivity|constructor]. }
    destruct (negb (HVersion entry =? "") && negb (Has vs (HVersion entry))).
    { injection H as <- _. exists []. split; [rewrite app_nil_r; reflexivity|constructor]. }
    destruct (negb (hasAnyAnnotation entry)); [exact (W _ H eq_refl)|].
    destruct (lookup HookAnno (annotations_of entry)) as [hookTypes|]; [|exact (W _ H eq_refl)].
    destruct (collect_events (GoText.Split hookTypes ","%char) false []) as [b evs] eqn:Ec.
    destruct b; simpl in H; [|exact (W _ H eq_refl)].
    destruct (IH _ r' e H) as (new & Hn & Hf).
    eexists. split; [rewrite Hn; simpl; rewrite <- app_assoc; reflexivity|].
    constructor.
    + destruct (collect_events_grow _ _ _ _ _ Ec) as (more & Hm & Hb).
      simpl in Hm. subst evs.
      split; [|split; [reflexivity|left; reflexivity]].
      split; [destruct (Hb eq_refl) as [Hf'|Hf']; [discriminate|exact Hf']|].
      split; [reflexivity|apply calculateHookWeight_spec].
    + eapply Forall_impl; [|exact Hf]. simpl. intros h (? & ? & ?). auto.
Qed.

Lemma sort_files_hooks (vs : VersionSet) (so : SortOrder) (files : list (string * string)) :
  forall r hs ms e,
  sort_files Unmarshal SplitManifests SortOrder sortByKind files vs so r = (hs, ms, e) ->
  exists new, hs = (hooks r ++ new)%list /\
    Forall (fun h => hook_ok h /\ prefix "_" (GoText.Base (HPath h)) = false /\
              exists c, In (HPath h, c) files /\ In (HManifest h) (SplitManifests c)) new.
Proof.
  induction files as [|[p c] files IH]; intros r hs ms e H; cbn [sort_files] in H.
  - injection H as <- _ _. exists []. split; [rewrite app_nil_r; reflexivity|constructor].
  - assert (W : forall r0, sort_files Unmarshal SplitManifests SortOrder sortByKind files vs so r0
                  = (hs, ms, e) -> hooks r0 = hooks r ->
                exists new, hs = (hooks r ++ new)%list /\
                  Forall (fun h => hook_ok h /\ prefix "_" (GoText.Base (HPath h)) = false /\
                    exists c0, In (HPath h, c0) ((p, c) :: files) /\
                               In (HManifest h) (SplitManifests c0)) new).
    { intros r0 H0 Hr0. destruct (IH r0 hs ms e H0) as (new & Hn & Hf).
      exists new. split; [rewrite Hn, Hr0; reflexivity|].
      eapply Forall_impl; [|exact Hf].
      intros h (Ho & Hp & c0 & Hi & Hm). split; [exact Ho|]. split; [exact Hp|].
      exists c0. split; [right; exact Hi|exact Hm]. }
    destruct (prefix "_" (GoText.Base p)) eqn:Hp; [exact (W _ H eq_refl)|].
    destruct (GoText.TrimSpace c =? ""); [exact (W _ H eq_refl)|].
    unfold sort in H; simpl in H.
    destruct (sort_entries Unmarshal p vs (SplitManifests c) r) as [r' [e'|]] eqn:Es.
    + injection H as <- _ _.
      destruct (sort_entries_hooks p vs (SplitManifests c) r r' (Some e') Es) as (new & Hn & Hf).
      exists new. split; [exact Hn|].
      eapply Forall_impl; [|exact Hf].
      intros h (Ho & Hph & Hm). subst p. split; [exact Ho|]. split; [exact Hp|].
      exists c. split; [left; reflexivity|exact Hm].
    + destruct (sort_entries_hooks p vs (SplitManifests c) r r' None Es) as (new1 & Hn1 & Hf1).
      destruct (IH r' hs ms e H) as (new2 & Hn2 & Hf2).
      exists (new1 ++ new2)%list. split; [rewrite Hn2, Hn1, app_assoc; reflexivity|].
      apply Forall_app. split.
      * eapply Forall_impl; [|exact Hf1].
        intros h (Ho & Hph & Hm). subst p. split; [exact Ho|]. split; [exact Hp|].
        exists c. split; [left; reflexivity|exact Hm].
      * eapply Forall_impl; [|exact Hf2].
        intros h (Ho & Hph & c0 & Hi & Hm). split; [exact Ho|]. split; [exact Hph|].
        exists c0. split; [right; exact Hi|exact Hm].
Qed.

End SortedHooks.

(** Every hook [sortManifests] returns, also alongside an error, has at least
    one event, has not run, has an [int32] weight, and comes from a document
    of one of the files whose base name does not start with "_": its path is
    that file's and its manifest one of the documents [SplitManifests] cut
    from the file's content. *)
Theorem sortManifests_hooks_wellformed (U : string -> errorOr SimpleHead)
  (SplitManifests : string -> list string) (S : Type)
  (sortByKind : list manifest -> S -> list manifest)
  (files : list (string * string)) (vs : VersionSet) (so : S) :
  Forall (fun h => Events h <> [] /\ LastRun h = None /\
            (- 2 ^ 31 <= Weight h <= 2 ^ 31 - 1)%Z /\
            prefix "_" (GoText.Base (HPath h)) = false /\
            exists c, In (HPath h, c) files /\ In (HManifest h) (SplitManifests c))
    (fst (fst (sortManifests U SplitManifests S sortByKind files vs so))).
Proof.
  unfold sortManifests.
  destruct (sort_files U SplitManifests S sortByKind files vs so (mkResult [] []))
    as [[hs ms] e] eqn:E.
  destruct (sort_files_hooks U SplitManifests S sortByKind vs so files _ hs ms e E)
    as (new & -> & Hf).
  simpl. eapply Forall_impl; [|exact Hf].
  intros h ((H1 & H2 & H3) & H4 & H5). auto.
Qed.

(** ** Chart directories and chart repositories *)
Import ChartFiles.

Lemma string_length_app (u v : string) :
  String.length (u ++ v) = String.length u + String.length v.
Proof. induction u as [|c u IH]; simpl; [reflexivity|rewrite IH; reflexivity]. Qed.

Lemma substring_app_r (u v : string) (n : nat) :
  substring (String.length u) n (u ++ v) = substring 0 n v.
Proof. induction u as [|c u IH]; simpl; [reflexivity|exact IH]. Qed.

Lemma substring_app_l (u v : string) : substring 0 (String.length u) (u ++ v) = u.
Proof. induction u as [|c u IH]; simpl; [destruct v; reflexivity|rewrite IH; reflexivity]. Qed.

Lemma string_app_empty (u : string) : u ++ "" = u.
Proof. induction u as [|c u IH]; simpl; [reflexivity|rewrite IH; reflexivity]. Qed.

Lemma substring_full (v : string) : substring 0 (String.length v) v = v.
Proof. rewrite <- (string_app_empty v) at 2. apply substring_app_l. Qed.

Lemma HasSuffix_app (u v : string) : HasSuffix (u ++ v) v = true.
Proof.
  unfold HasSuffix. rewrite string_length_app.
  replace (String.length u + String.length v - String.length v) with (String.length u) by lia.
  rewrite substring_app_r, substring_full, String.eqb_refl, andb_true_r.
  apply Nat.leb_le. lia.
Qed.

Lemma TrimSuffix_app (u v : string) : TrimSuffix (u ++ v) v = u.
Proof.
  unfold TrimSuffix. rewrite HasSuffix_app, string_length_app.
  replace (String.length u + String.length v - String.length v) with (String.length u) by lia.
  apply substring_app_l.
Qed.

(** [DownloadIndexFile] requests [index.yaml] directly under the repository
    URL, whether or not that URL ends in one slash. *)
Theorem indexURL_trailing_slash (u : string) :
  indexURL (u ++ "/") = u ++ "/index.yaml" /\
  (HasSuffix u "/" = false -> indexURL u = u ++ "/index.yaml").
Proof.
  split.
  - unfold indexURL. rewrite TrimSuffix_app. reflexivity.
  - intro H. unfold indexURL, TrimSuffix. rewrite H. reflexivity.
Qed.

Section ChartDirs.
Variable Stat : string -> stat_result.
Variable ReadFile : string -> errorOr string.
Variable Join : string -> string -> string.
Variable yaml_Unmarshal : string -> errorOr Metadata.

(** [IsChartDir] returns true exactly when it returns no error, and exactly
    when the path is a directory, its [Chart.yaml] is not reported missing by
    [os.Stat], can be read, decodes, and names the chart. [UnmarshalChartfile]
    returns a nil metadata only with an error, so the "chart metadata
    (Chart.yaml) missing" branch of [IsChartDir] is never taken. *)
Theorem IsChartDir_spec (dirName : string) :
  let res := IsChartDir Stat ReadFile Join yaml_Unmarshal dirName in
  (fst res = true <-> snd res = None) /\
  (fst res = true <->
     Stat dirName = StatOk true /\
     (forall e, Stat (Join dirName "Chart.yaml") <> StatErr e true) /\
     exists b md, ReadFile (Join dirName "Chart.yaml") = Ok b /\
       yaml_Unmarshal b = Ok md /\ MetaName md <> "") /\
  (forall data, UnmarshalChartfile yaml_Unmarshal data <> (None, None)).
Proof.
  assert (U : forall data, UnmarshalChartfile yaml_Unmarshal data <> (None, None)).
  { intros data. unfold UnmarshalChartfile. destruct (yaml_Unmarshal data); discriminate. }
  cbv zeta. split; [|split; [|exact U]]; unfold IsChartDir.
  - destruct (Stat dirName) as [[|]|e ne];
      try (destruct (Stat (Join dirName "Chart.yaml")) as [d|e0 [|]]);
      try (destruct (ReadFile (Join dirName "Chart.yaml")) as [b|e1]);
      unfold UnmarshalChartfile;
      try (destruct (yaml_Unmarshal b) as [md|e2]);
      try (destruct (MetaName md =? ""));
      simpl; split; intro H; first [reflexivity|discriminate H].
  - destruct (Stat dirName) as [[|]|e ne] eqn:Hd.
    2:{ simpl. split; [intro H0; discriminate H0|intros [H _]; congruence]. }
    2:{ simpl. split; [intro H0; discriminate H0|intros [H _]; congruence]. }
    destruct (Stat (Join dirName "Chart.yaml")) as [d|e [|]] eqn:Hc.
    2:{ simpl. split; [intro H0; discriminate H0|]. intros (_ & H & _). destruct (H e eq_refl). }
    all: destruct (ReadFile (Join dirName "Chart.yaml")) as [b|e'] eqn:Hr;
      [|simpl; split; [intro H0; discriminate H0|intros (_ & _ & b' & md & Hb & _); discriminate Hb]].
    all: unfold UnmarshalChartfile; destruct (yaml_Unmarshal b) as [md|e''] eqn:Hy;
      [|simpl; split; [intro H0; discriminate H0|intros (_ & _ & b' & md & Hb & Hm & _);
                       injection Hb as <-; congruence]].
    all: destruct (String.eqb_spec (MetaName md) "") as [Hn|Hn]; simpl.
    all: try (split; [intro H0; discriminate H0|intros (_ & _ & b' & md' & Hb & Hm & Hn');
                        injection Hb as <-; rewrite Hy in Hm; injection Hm as <-; contradiction]).
    all: split; [intros _; split; [reflexivity|split]|intros _; reflexivity].
    all: try (intros e0 H0; discriminate H0).
    all: exists b, md; repeat split; assumption.
Qed.

End ChartDirs.

Section Repositories.
Variable Stat : string -> stat_result.
Variable Join : string -> string -> string.
Variable Getter IndexFile Buffer : Type.
Variable url_Parse : string -> errorOr ParsedURL.
Variable ByScheme :
  string -> errorOr (string -> string -> string -> string -> Getter * option string).
Variable NewIndexFile : IndexFile.
Variable Walk : string -> list (string * FileInfo).
Variable LoadIndexFile : string -> errorOr IndexFile.
Variable Get : Getter -> string -> errorOr Buffer.
Variable ReadAll : Buffer -> errorOr string.
Variable loadIndex : string -> errorOr IndexFile.
Variable IsAbs : string -> bool.
Variable WriteFile : string -> string -> option string.

(** [NewChartRepository] never returns its "Could not construct protocol
    handler" error: the [err] it tests there is the nil error of
    [getters.ByScheme]. *)
Theorem NewChartRepository_construct_error_unreachable (cfg : Entry) (s : string) :
  snd (NewChartRepository Getter IndexFile url_Parse ByScheme NewIndexFile cfg) <>
  Some ("Could not construct protocol handler for: " ++ s).
Proof.
  unfold NewChartRepository.
  destruct (url_Parse (URL cfg)) as [u|e]; simpl; [|intro H; discriminate H].
  destruct (ByScheme (Scheme u)) as [ctor|e]; simpl; [|intro H; discriminate H].
  destruct (ctor (URL cfg) (CertFile cfg) (KeyFile cfg) (CAFile cfg)). simpl.
  intro H; discriminate H.
Qed.

(** Once the URL parses and a getter is registered for its scheme,
    [NewChartRepository] returns a repository with the given entry, no chart
    paths, a new index and the constructed client, and no error, whatever
    error the getter constructor reported. *)
Theorem NewChartRepository_ignores_constructor_error (cfg : Entry) (u : ParsedURL)
  (ctor : string -> string -> string -> string -> Getter * option string) :
  url_Parse (URL cfg) = Ok u -> ByScheme (Scheme u) = Ok ctor ->
  NewChartRepository Getter IndexFile url_Parse ByScheme NewIndexFile cfg =
  (Some (mkChartRepository cfg [] NewIndexFile
           (fst (ctor (URL cfg) (CertFile cfg) (KeyFile cfg) (CAFile cfg)))), None).
Proof.
  intros Hu Hb. unfold NewChartRepository. rewrite Hu, Hb.
  destruct (ctor (URL cfg) (CertFile cfg) (KeyFile cfg) (CAFile cfg)). reflexivity.
Qed.

Lemma load_visit_step (r : ChartRepository Getter IndexFile) (pf : string * FileInfo) :
  let r' := load_visit Getter IndexFile LoadIndexFile r pf in
  Config r' = Config r /\ Client r' = Client r /\
  ChartPaths r' = (ChartPaths r ++ map fst (filter chart_entry [pf]))%list.
Proof.
  destruct pf as [p f]. unfold load_visit, chart_entry. cbv zeta. simpl.
  destruct (FIsDir f); simpl; [rewrite app_nil_r; repeat split|].
  destruct (Contains (FName f) "-index.yaml"); simpl.
  - destruct (LoadIndexFile p); simpl; rewrite app_nil_r; repeat split.
  - destruct (HasSuffix (FName f) ".tgz"); simpl; [repeat split|rewrite app_nil_r; repeat split].
Qed.

Lemma fold_load_visit (l : list (string * FileInfo)) : forall r,
  let r' := fold_left (load_visit Getter IndexFile LoadIndexFile) l r in
  Config r' = Config r /\ Client r' = Client r /\
  ChartPaths r' = (ChartPaths r ++ map fst (filter chart_entry l))%list.
Proof.
  induction l as [|pf l IH]; intros r; cbv zeta; cbn [fold_left].
  - repeat split. simpl. rewrite app_nil_r. reflexivity.
  - destruct (IH (load_visit Getter IndexFile LoadIndexFile r pf)) as (H1 & H2 & H3).
    destruct (load_visit_step r pf) as (S1 & S2 & S3).
    rewrite H1, H2, H3, S1, S2, S3. repeat split.
    change (pf :: l) with ([pf] ++ l)%list.
    rewrite filter_app, map_app, app_assoc. reflexivity.
Qed.

(** [ChartRepository.Load] fails only when the repository's root (its
    [Name]) is not a directory, and then changes nothing. Otherwise it
    returns no error, whatever the walk and the index files give, and
    appends, in walk order, the paths of the files whose names end in
    ".tgz" and do not contain "-index.yaml"; the entry and the client are
    kept. *)
Theorem Load_spec (r : ChartRepository Getter IndexFile) :
  let res := Load Stat Getter IndexFile Walk LoadIndexFile r in
  (snd res = None <-> Stat (Name (Config r)) = StatOk true) /\
  (Stat (Name (Config r)) <> StatOk true -> fst res = r) /\
  Config (fst res) = Config r /\ Client (fst res) = Client r /\
  (Stat (Name (Config r)) = StatOk true ->
   ChartPaths (fst res) =
   (ChartPaths r ++ map fst (filter chart_entry (Walk (Name (Config r)))))%list).
Proof.
  cbv zeta. unfold Load.
  destruct (Stat (Name (Config r))) as [[|]|e ne]; simpl.
  - destruct (fold_load_visit (Walk (Name (Config r))) r) as (H1 & H2 & H3).
    repeat split; intros; try assumption; try reflexivity; congruence.
  - repeat split; intros; try assumption; try reflexivity; congruence.
  - repeat split; intros; try assumption; try reflexivity; congruence.
Qed.

(** [DownloadIndexFile] writes at most one file, and only bytes that it
    fetched from the repository's [index.yaml] URL and that [loadIndex]
    accepted; it writes them verbatim at the entry's [Cache] path, put under
    [cachePath] when not absolute. No error implies the file was written. *)
Theorem DownloadIndexFile_writes (r : ChartRepository Getter IndexFile) (cachePath : string) :
  let res := DownloadIndexFile Join Getter IndexFile Buffer Get ReadAll loadIndex IsAbs
               WriteFile r cachePath in
  length (fst res) <= 1 /\
  (snd res = None -> fst res <> []) /\
  Forall (fun '(p, bytes) =>
            p = (if IsAbs (Cache (Config r)) then Cache (Config r)
                 else Join cachePath (Cache (Config r))) /\
            exists resp ix, Get (Client r) (indexURL (URL (Config r))) = Ok resp /\
              ReadAll resp = Ok bytes /\ loadIndex bytes = Ok ix)
    (fst res).
Proof.
  cbv zeta. unfold DownloadIndexFile.
  destruct (Get (Client r) (indexURL (URL (Config r)))) as [resp|e] eqn:Hg; simpl;
    [|repeat split; [lia|intro H; discriminate H|constructor]].
  destruct (ReadAll resp) as [index|e] eqn:Hr; simpl;
    [|repeat split; [lia|intro H; discriminate H|constructor]].
  destruct (loadIndex index) as [ix|e] eqn:Hl; simpl;
    [|repeat split; [lia|intro H; discriminate H|constructor]].
  repeat split; [lia|intros _ H; discriminate H|].
  constructor; [|constructor]. split.
  - destruct (IsAbs (Cache (Config r))); reflexivity.
  - exists resp, ix. split; [reflexivity|split; assumption].
Qed.

End Repositories.

Lemma NewChartRepository_ignores_constructor_error_witness :
  Fixtures2.url_Parse (URL Fixtures2.secure) = Ok (mkParsedURL "https") /\
  Fixtures2.ByScheme (Scheme (mkParsedURL "https")) = Ok Fixtures2.https_getter /\
  NewChartRepository unit unit Fixtures2.url_Parse Fixtures2.ByScheme tt Fixtures2.secure =
  (Some (mkChartRepository Fixtures2.secure [] tt
           (fst (Fixtures2.https_getter (URL Fixtures2.secure) (CertFile Fixtures2.secure)
                   (KeyFile Fixtures2.secure) (CAFile Fixtures2.secure)))), None).
Proof.
  split; [reflexivity|]. split; [reflexivity|].
  apply (NewChartRepository_ignores_constructor_error unit unit Fixtures2.url_Parse
           Fixtures2.ByScheme tt Fixtures2.secure (mkParsedURL "https") Fixtures2.https_getter);
    reflexivity.
Defined.

(** ** Loading the repositories file *)
Import Repo.

(** [LoadRepositoriesFile] never returns neither a file nor an error. A file
    it returns without error has an [apiVersion]; a file returned with an
    error comes with [ErrRepoOutOfDate] and is in the current format
    ([apiVersion] v1). *)
Theorem LoadRepositoriesFile_result_contract (ReadFile : string -> errorOr string) (Now : Z)
  (U1 : string -> errorOr RepoFile) (U2 : string -> errorOr (list (string * string)))
  (p : string) :
  match LoadRepositoriesFile ReadFile Now U1 U2 p with
  | (None, Some _) => True
  | (Some r, None) => APIVersion r <> ""
  | (Some r, Some e) => e = ErrRepoOutOfDate /\ APIVersion r = APIVersionV1
  | (None, None) => False
  end.
Proof.
  unfold LoadRepositoriesFile.
  destruct (ReadFile p) as [b|e]; [|exact I].
  destruct (U1 b) as [r|e]; [|exact I].
  destruct (String.eqb_spec (APIVersion r) "") as [Hv|Hv]; [|exact Hv].
  destruct (U2 b) as [m|e]; [|exact I].
  split; [reflexivity|]. apply (fold_add_legacy m (NewRepoFile Now)).
Qed.

(** ** Files skipped by [sortManifests] *)
Import Classifier.

(** Partials (base name starting with "_") and files of blank content play
    no part in [sortManifests]: its result is that of the same call on the
    other files, in the same order. *)
Theorem sortManifests_skipped_files (U : string -> errorOr SimpleHead)
  (SplitManifests : string -> list string) (S : Type)
  (sortByKind : list manifest -> S -> list manifest)
  (files : list (string * string)) (vs : VersionSet) (so : S) :
  sortManifests U SplitManifests S sortByKind files vs so =
  sortManifests U SplitManifests S sortByKind
    (filter (fun '(p, c) => negb (prefix "_" (GoText.Base p)) &&
                            negb (GoText.TrimSpace c =? "")) files) vs so.
Proof.
  unfold sortManifests. generalize (mkResult [] []).
  induction files as [|[p c] files IH]; intros r; [reflexivity|].
  cbn [sort_files filter].
  destruct (prefix "_" (GoText.Base p)) eqn:Hp; simpl; [apply IH|].
  destruct (GoText.TrimSpace c =? "") eqn:Ht; simpl; [apply IH|].
  rewrite Hp, Ht.
  destruct (sort U (mkManifestFile (SplitManifests c) p vs) r) as [r' [e|]]; [reflexivity|].
  apply IH.
Qed.

(** ** Rendering *)
Import Render.

Section Rendering.
Variable PathJoin : list string -> string.

Lemma notes_fold_files (chartName : string) (files : list (string * string)) :
  forall n0 fs0,
  snd (fold_left (notes_step PathJoin chartName) files (n0, fs0)) =
  (fs0 ++ filter (fun '(k, _) => negb (HasSuffix k notesFileSuffix)) files)%list.
Proof.
  induction files as [|[k v] files IH]; intros n0 fs0; simpl.
  - rewrite app_nil_r; reflexivity.
  - destruct (HasSuffix k notesFileSuffix); simpl; rewrite IH;
      [reflexivity|rewrite <- app_assoc; reflexivity].
Qed.

Lemma notes_fold_absent (chartName : string) (files : list (string * string)) :
  (forall v, In (PathJoin [chartName; "templates"; notesFileSuffix], v) files -> HasSuffix (PathJoin [chartName; "templates"; notesFileSuffix]) notesFileSuffix = false) ->
  forall n0 fs0, fst (fold_left (notes_step PathJoin chartName) files (n0, fs0)) = n0.
Proof.
  induction files as [|[k v] files IH]; intros H n0 fs0; simpl; [reflexivity|].
  destruct (HasSuffix k notesFileSuffix) eqn:Hk.
  - destruct (String.eqb_spec k (PathJoin [chartName; "templates"; notesFileSuffix])) as [->|Hne].
    + rewrite (H v (or_introl eq_refl)) in Hk. discriminate Hk.
    + apply IH. intros v' Hin. apply (H v'). right. exact Hin.
  - apply IH. intros v' Hin. apply (H v'). right. exact Hin.
Qed.

Lemma notes_fold_present (chartName : string) (files : list (string * string)) :
  NoDup (map fst files) -> HasSuffix (PathJoin [chartName; "templates"; notesFileSuffix]) notesFileSuffix = true ->
  forall v n0 fs0, In (PathJoin [chartName; "templates"; notesFileSuffix], v) files ->
  fst (fold_left (notes_step PathJoin chartName) files (n0, fs0)) = v.
Proof.
  induction files as [|[k v'] files IH]; intros Hnd HP v n0 fs0 Hin; simpl;
    [destruct Hin|].
  inversion Hnd as [|? ? Hnot Hnd']; subst.
  destruct Hin as [E|Hin].
  - injection E as -> ->. rewrite HP, String.eqb_refl.
    apply notes_fold_absent. intros v'' Hin.
    exfalso. apply Hnot. apply (in_map fst _ _ Hin).
  - assert (Hk : k <> PathJoin [chartName; "templates"; notesFileSuffix]).
    { intros ->. apply Hnot. apply (in_map fst _ _ Hin). }
    destruct (HasSuffix k notesFileSuffix).
    + destruct (String.eqb_spec k (PathJoin [chartName; "templates"; notesFileSuffix])) as [E|_]; [contradiction|].
      apply IH; assumption.
    + apply IH; assumption.
Qed.

(** The notes loop of [renderResources] keeps exactly the files whose name
    does not end in [NOTES.txt], in order; with the unique keys of a map, the
    notes are the content of the parent chart's
    [path.Join(name, "templates", "NOTES.txt")] (a path ending in
    [NOTES.txt]) when that file is there, and empty when it is not: the
    NOTES.txt of a subchart never becomes the notes. *)
Theorem extract_notes_spec (chartName : string) (files : list (string * string))
  (Hkeys : NoDup (map fst files))
  (Hjoin : HasSuffix (PathJoin [chartName; "templates"; notesFileSuffix]) notesFileSuffix = true) :
  snd (extract_notes PathJoin chartName files) =
    filter (fun '(k, _) => negb (HasSuffix k notesFileSuffix)) files /\
  (forall v, In (PathJoin [chartName; "templates"; notesFileSuffix], v) files ->
     fst (extract_notes PathJoin chartName files) = v) /\
  ((forall v, ~ In (PathJoin [chartName; "templates"; notesFileSuffix], v) files) ->
     fst (extract_notes PathJoin chartName files) = "").
Proof.
  unfold extract_notes. split; [|split].
  - rewrite notes_fold_files. reflexivity.
  - intros v Hin. apply notes_fold_present; assumption.
  - intros Hn. apply notes_fold_absent. intros v Hin. exfalso. exact (Hn v Hin).
Qed.

End Rendering.

Section RenderOutcome.
Variable PathJoin : list string -> string.
Variable Chart_t Values_t : Type.
Variable TillerVersion ChartName : Chart_t -> string.
Variable sver : string.
Variable IsCompatibleRange : string -> string -> bool.
Variable Render : Chart_t -> Values_t -> errorOr (list (string * string)).
Variable U : string -> errorOr SimpleHead.
Variable SplitManifests : string -> list string.
Variable S : Type.
Variable sortByKind : list manifest -> S -> list manifest.
Variable InstallOrder : S.

(** [renderResources] succeeds only through a successful render: its notes
    are those of the notes loop, its hooks and manifests are those
    [sortManifests] returns on the files left by that loop, its buffer is
    the manifests in order, each as ["\n---\n# Source: " + name + "\n"] then
    its content, and no hook comes from a file whose name ends in
    [NOTES.txt]. *)
Theorem renderResources_success (ch : Chart_t) (values : Values_t) (vs : VersionSet)
  (hooks : list Hook) (b notes : string)
  (H : renderResources PathJoin Chart_t Values_t TillerVersion ChartName sver
         IsCompatibleRange Render U SplitManifests S sortByKind InstallOrder ch values vs
       = (Some hooks, Some b, notes, None)) :
  exists files0 manifests,
    Render ch values = Ok files0 /\
    notes = fst (extract_notes PathJoin (ChartName ch) files0) /\
    sortManifests U SplitManifests S sortByKind
      (snd (extract_notes PathJoin (ChartName ch) files0)) vs InstallOrder
      = (hooks, manifests, None) /\
    b = source_blob (map (fun m => (name m, content m)) manifests) /\
    Forall (fun h => HasSuffix (HPath h) notesFileSuffix = false) hooks.
Proof.
  unfold renderResources in H.
  destruct (negb (TillerVersion ch =? "") && negb (IsCompatibleRange (TillerVersion ch) sver));
    [discriminate H|].
  destruct (Render ch values) as [files0|e]; [|discriminate H].
  destruct (extract_notes PathJoin (ChartName ch) files0) as [n fs] eqn:EX.
  destruct (sortManifests U SplitManifests S sortByKind fs vs InstallOrder)
    as [[hs ms] [e|]] eqn:ES; [discriminate H|].
  injection H as <- <- <-.
  exists files0, ms. rewrite EX. simpl. repeat split; try assumption; try reflexivity.
  unfold sortManifests in ES.
  destruct (sort_files_hooks U SplitManifests S sortByKind vs InstallOrder fs _ hs ms None ES)
    as (new & -> & Hf).
  simpl. eapply Forall_impl; [|exact Hf].
  intros h (_ & _ & c & Hin & _).
  assert (Efs : fs = filter (fun '(k, _) => negb (HasSuffix k notesFileSuffix)) files0).
  { change fs with (snd (n, fs)). rewrite <- EX. unfold extract_notes.
    rewrite notes_fold_files. reflexivity. }
  rewrite Efs in Hin. apply filter_In in Hin as [_ Hk].
  destruct (HasSuffix (HPath h) notesFileSuffix); [discriminate Hk|reflexivity].
Qed.


End RenderOutcome.

Lemma extract_notes_spec_witness :
  NoDup (map fst Fixtures2.rendered) /\
  HasSuffix (Fixtures2.join_slash ["web"; "templates"; notesFileSuffix]) notesFileSuffix = true /\
  (snd (extract_notes Fixtures2.join_slash "web" Fixtures2.rendered) =
     filter (fun '(k, _) => negb (HasSuffix k notesFileSuffix)) Fixtures2.rendered /\
   (forall v, In (Fixtures2.join_slash ["web"; "templates"; notesFileSuffix], v) Fixtures2.rendered ->
      fst (extract_notes Fixtures2.join_slash "web" Fixtures2.rendered) = v) /\
   ((forall v, ~ In (Fixtures2.join_slash ["web"; "templates"; notesFileSuffix], v) Fixtures2.rendered) ->
      fst (extract_notes Fixtures2.join_slash "web" Fixtures2.rendered) = "")).
Proof.
  assert (Hnd : NoDup (map fst Fixtures2.rendered)).
  { vm_compute. repeat constructor; simpl; intuition discriminate. }
  assert (Hj : HasSuffix (Fixtures2.join_slash ["web"; "templates"; notesFileSuffix])
                 notesFileSuffix = true) by (vm_compute; reflexivity).
  split; [exact Hnd|]. split; [exact Hj|].
  exact (extract_notes_spec Fixtures2.join_slash "web" Fixtures2.rendered Hnd Hj).
Defined.

Lemma renderResources_success_witness :
  let r := renderResources Fixtures2.join_slash unit unit (fun _ => "") (fun _ => "web")
             "v2.9.0" (fun _ _ => true) Fixtures2.render_ok Fixtures.Unmarshal
             Fixtures.SplitOne unit Fixtures.sortByKind_id tt tt tt ["v1"] in
  let hooks := match fst (fst (fst r)) with Some h => h | None => [] end in
  let b := match snd (fst (fst r)) with Some b => b | None => "" end in
  r = (Some hooks, Some b, snd (fst r), None) /\
  exists files0 manifests,
    Fixtures2.render_ok tt tt = Ok files0 /\
    snd (fst r) = fst (extract_notes Fixtures2.join_slash "web" files0) /\
    sortManifests Fixtures.Unmarshal Fixtures.SplitOne unit Fixtures.sortByKind_id
      (snd (extract_notes Fixtures2.join_slash "web" files0)) ["v1"] tt
      = (hooks, manifests, None) /\
    b = source_blob (map (fun m => (name m, content m)) manifests) /\
    Forall (fun h => HasSuffix (HPath h) notesFileSuffix = false) hooks.
Proof.
  intros r hooks b.
  assert (H : r = (Some hooks, Some b, snd (fst r), None)) by (vm_compute; reflexivity).
  split; [exact H|].
  exact (renderResources_success Fixtures2.join_slash unit unit (fun _ => "") (fun _ => "web")
           "v2.9.0" (fun _ _ => true) Fixtures2.render_ok Fixtures.Unmarshal
           Fixtures.SplitOne unit Fixtures.sortByKind_id tt tt tt ["v1"]
           hooks b (snd (fst r)) H).
Defined.

(** ** The [helm repo index] command *)
Import IndexCmd.

Section IndexCommand.
Variable IndexFile : Type.
Variable Join : string -> string -> string.
Variable IndexDirectory : string -> string -> errorOr IndexFile.
Variable LoadIndexFile : string -> errorOr IndexFile.
Variable Merge : IndexFile -> IndexFile -> IndexFile.
Variable SortEntries : IndexFile -> IndexFile.
Variable WriteIndex : IndexFile -> string -> option string.

(** [index] writes at most once, always to [<dir>/index.yaml], the sorted
    index of the directory (merged into the index at [mergeTo] when one is
    given), and returns the error of that write; it writes nothing when the
    directory cannot be indexed (returning that error) or the index to merge
    cannot be loaded (returning ["Merge failed: "] and that error). *)
Theorem index_spec (dir url mergeTo : string) :
  match index IndexFile Join IndexDirectory LoadIndexFile Merge SortEntries WriteIndex
          dir url mergeTo with
  | (Some (i, out), err) =>
      out = Join dir "index.yaml" /\ err = WriteIndex i out /\
      exists i0, IndexDirectory dir url = Ok i0 /\
        (mergeTo = "" /\ i = SortEntries i0 \/
         mergeTo <> "" /\ exists i2, LoadIndexFile mergeTo = Ok i2 /\ i = SortEntries (Merge i0 i2))
  | (None, err) =>
      (exists e, IndexDirectory dir url = Err e /\ err = Some e) \/
      (mergeTo <> "" /\ exists i0 e, IndexDirectory dir url = Ok i0 /\
         LoadIndexFile mergeTo = Err e /\ err = Some ("Merge failed: " ++ e))
  end.
Proof.
  unfold index.
  destruct (IndexDirectory dir url) as [i0|e] eqn:EI.
  2: { left. exists e. split; reflexivity. }
  destruct (String.eqb_spec mergeTo "") as [->|Hm]; simpl.
  - repeat split. exists i0. split; [reflexivity|]. left. split; reflexivity.
  - destruct (LoadIndexFile mergeTo) as [i2|e] eqn:EL.
    + repeat split. exists i0. split; [reflexivity|]. right. split; [exact Hm|].
      exists i2. split; reflexivity.
    + right. split; [exact Hm|]. exists i0, e. repeat split.
Qed.

End IndexCommand.

(** ** Indexing a chart repository *)
Import RepoIndex.

Section GeneratedIndex.
Variable Getter IndexFile : Type.
Variable ChartMeta : Type.
Variable MetaName MetaVersion : ChartMeta -> string.
Variable ChartLoad : string -> errorOr ChartMeta.
Variable DigestFile : string -> errorOr string.
Variable IHas : IndexFile -> string -> string -> bool.
Variable IAdd : IndexFile -> ChartMeta -> string -> string -> string -> IndexFile.
Variable SortEntries : IndexFile -> IndexFile.
(** [Add] keeps what the index has and adds the chart's name and version;
    [SortEntries] keeps what the index has. *)
Hypothesis HAddKeep : forall idx md p u d n v,
  IHas idx n v = true -> IHas (IAdd idx md p u d) n v = true.
Hypothesis HAddNew : forall idx md p u d,
  IHas (IAdd idx md p u d) (MetaName md) (MetaVersion md) = true.
Hypothesis HSort : forall idx n v, IHas (SortEntries idx) n v = IHas idx n v.

Lemma index_charts_keep (url : string) (ps : list string) :
  forall idx idx' e n v,
  index_charts IndexFile ChartMeta MetaName MetaVersion ChartLoad DigestFile IHas IAdd url ps idx
    = (idx', e) ->
  IHas idx n v = true -> IHas idx' n v = true.
Proof.
  induction ps as [|p ps IH]; intros idx idx' e n v H Hn; simpl in H.
  - injection H as <- _. exact Hn.
  - destruct (ChartLoad p) as [md|e']; [|injection H as <- _; exact Hn].
    destruct (DigestFile p) as [d|e']; [|injection H as <- _; exact Hn].
    apply (IH _ _ _ n v H).
    destruct (negb (IHas idx (MetaName md) (MetaVersion md))); [apply HAddKeep|]; exact Hn.
Qed.

Lemma index_charts_all (url : string) (ps : list string) :
  forall idx idx',
  index_charts IndexFile ChartMeta MetaName MetaVersion ChartLoad DigestFile IHas IAdd url ps idx
    = (idx', None) ->
  forall p, In p ps ->
  exists md, ChartLoad p = Ok md /\ IHas idx' (MetaName md) (MetaVersion md) = true.
Proof.
  induction ps as [|p ps IH]; intros idx idx' H q Hq; [destruct Hq|]; simpl in H.
  destruct (ChartLoad p) as [md|e] eqn:EL; [|discriminate H].
  destruct (DigestFile p) as [d|e]; [|discriminate H].
  destruct Hq as [<-|Hq].
  - exists md. split; [exact EL|].
    apply (index_charts_keep url ps _ _ None _ _ H).
    destruct (IHas idx (MetaName md) (MetaVersion md)) eqn:Eh; simpl;
      [exact Eh|apply HAddNew].
  - exact (IH _ _ H q Hq).
Qed.

(** After a successful [generateIndex], every chart path of the repository
    loads and its name and version are in the index; what the index had
    before is still there, and the configuration, paths and client are
    unchanged. *)
Theorem generateIndex_indexes_all (r r' : ChartRepository Getter IndexFile)
  (H : generateIndex Getter IndexFile ChartMeta MetaName MetaVersion ChartLoad DigestFile
         IHas IAdd SortEntries r = (r', None)) :
  Config r' = Config r /\ ChartPaths r' = ChartPaths r /\ Client r' = Client r /\
  (forall n v, IHas (RIndexFile r) n v = true -> IHas (RIndexFile r') n v = true) /\
  (forall p, In p (ChartPaths r) ->
     exists md, ChartLoad p = Ok md /\
       IHas (RIndexFile r') (MetaName md) (MetaVersion md) = true).
Proof.
  unfold generateIndex in H.
  destruct (index_charts IndexFile ChartMeta MetaName MetaVersion ChartLoad DigestFile IHas IAdd
              (URL (Config r)) (ChartPaths r) (RIndexFile r)) as [idx [e|]] eqn:E;
    [discriminate H|].
  injection H as <-. simpl. repeat split.
  - intros n v Hn. rewrite HSort. exact (index_charts_keep _ _ _ _ _ n v E Hn).
  - intros p Hp. destruct (index_charts_all _ _ _ _ E p Hp) as (md & Hl & Hh).
    exists md. split; [exact Hl|]. rewrite HSort. exact Hh.
Qed.

End GeneratedIndex.

Lemma generateIndex_indexes_all_witness :
  let IHas := fun (idx : list (string * string)) n v =>
    existsb (fun '(a, b) => (a =? n) && (b =? v)) idx in
  let IAdd := fun (idx : list (string * string)) (md : string * string)
                 (_ _ _ : string) => md :: idx in
  let r := mkChartRepository (Fixtures2.stable) ["charts/web-1.0.0.tgz"; "charts/db-2.1.0.tgz"]
             [("old", "0.1.0")] tt in
  let load := fun p : string =>
    if p =? "charts/web-1.0.0.tgz" then Ok ("web", "1.0.0")
    else if p =? "charts/db-2.1.0.tgz" then Ok ("db", "2.1.0") else Err "no such file" in
  let res := generateIndex unit (list (string * string)) (string * string) fst snd load
               (fun _ => Ok "sha256") IHas IAdd (fun idx => idx) r in
  res = (fst res, None) /\
  Config (fst res) = Config r /\ ChartPaths (fst res) = ChartPaths r /\
  Client (fst res) = Client r /\
  (forall n v, IHas (RIndexFile r) n v = true -> IHas (RIndexFile (fst res)) n v = true) /\
  (forall p, In p (ChartPaths r) ->
     exists md, load p = Ok md /\ IHas (RIndexFile (fst res)) (fst md) (snd md) = true).
Proof.
  intros IHas IAdd r load res.
  assert (H : res = (fst res, None)) by (vm_compute; reflexivity).
  split; [exact H|].
  refine (generateIndex_indexes_all unit (list (string * string)) (string * string) fst snd
            load (fun _ => Ok "sha256") IHas IAdd (fun idx => idx) _ _ _ r (fst res) H).
  - intros idx md p u d n v Hn. simpl. rewrite Hn. apply orb_true_r.
  - intros idx [a b] p u d. simpl. rewrite !String.eqb_refl. reflexivity.
  - intros idx n v. reflexivity.
Defined.
